(** * QMD remote inference: credential store, inference server, proxy client

    A shallow embedding of [auth.ts], [remote-server.ts] and [remote-llm.ts].

    - JavaScript strings are [string]s whose characters are Latin-1 code
      units (the range of an HTTP header value as Node decodes it).
    - [undefined] is [None] in [jsv := option json]; [null] is [JNull].
    - Exceptions are explicit: a computation is a function from a state to an
      [outcome] and a new state; [try_catch] is JavaScript's try/catch.
    - The platform built-ins the sources call ([JSON.stringify],
      [JSON.parse], [new URL]) are the fields of the class [Platform];
      an executable instance of it is [Node.platform].
    - What the platform does between the lines of the sources is part of
      the model where a call depends on it: the binding of [require] in
      the module's scope ([Auth.require_fs]) and the handling of a
      header value by [fetch] ([header_value], [http_exchange]).
    - Timers, abort signals and console output are not modelled. *)

From Stdlib Require Import String Ascii List ZArith NArith Bool Lia.
From Stdlib Require Import DecimalString.
Import ListNotations.
Open Scope list_scope.
Open Scope string_scope.

(* ================================================================== *)
(** * JavaScript values and string primitives *)
(* ================================================================== *)

Set Warnings "-register-all".

(** JSON values; [number] is the type of JavaScript numbers. *)
Inductive json (number : Type) : Type :=
| JNull
| JBool (b : bool)
| JNum (n : number)
| JStr (s : string)
| JArr (items : list (json number))
| JObj (fields : list (string * json number)).

Arguments JNull {number}.
Arguments JBool {number} b.
Arguments JNum {number} n.
Arguments JStr {number} s.
Arguments JArr {number} items.
Arguments JObj {number} fields.

(** A thrown value: an [Error] object, of which the sources only read
    [message] (the declared parameter type of [sendError] is [string]). *)
Record js_error : Type := Error { message : string }.

Inductive outcome (A : Type) : Type :=
| Ok (a : A)
| Throw (e : js_error).

Arguments Ok {A} a.
Arguments Throw {A} e.

(** [s] is truthy: the non-empty strings. *)
Definition string_truthy (s : string) : bool :=
  match s with EmptyString => false | String _ _ => true end.

(** [a || b] on a possibly undefined string. *)
Definition or_string (a : option string) (b : string) : string :=
  match a with
  | Some s => if string_truthy s then s else b
  | None => b
  end.

(** The code units below 256 that the regular-expression class [\s]
    matches: TAB, LF, VT, FF, CR, SPACE and NBSP. *)
Definition is_js_space (c : ascii) : bool :=
  let n := N_of_ascii c in
  ((9 <=? n) && (n <=? 13) || (n =? 32) || (n =? 160))%N.

Definition ascii_toUpperCase (c : ascii) : ascii :=
  let n := N_of_ascii c in
  if ((97 <=? n) && (n <=? 122))%N then ascii_of_N (n - 32) else c.

(** [String.prototype.toUpperCase] on ASCII text (HTTP method tokens). *)
Fixpoint toUpperCase (s : string) : string :=
  match s with
  | EmptyString => EmptyString
  | String c r => String (ascii_toUpperCase c) (toUpperCase r)
  end.

(** Case-insensitive match of one pattern letter, as the [i] flag does it:
    both sides are upper-cased; no code unit above 127 folds onto ASCII. *)
Definition ci_eqb (p c : ascii) : bool :=
  Ascii.eqb (ascii_toUpperCase p) (ascii_toUpperCase c).

(** [match_ci pat s]: [s] begins with [pat] up to letter case; the rest. *)
Fixpoint match_ci (pat s : string) : option string :=
  match pat with
  | EmptyString => Some s
  | String p pat' =>
      match s with
      | EmptyString => None
      | String c s' => if ci_eqb p c then match_ci pat' s' else None
      end
  end.

Fixpoint drop_spaces (s : string) : string :=
  match s with
  | EmptyString => EmptyString
  | String c r => if is_js_space c then drop_spaces r else s
  end.

(** [s.replace(/^Bearer\s+/i, "")]: the prefix and the whole run of
    whitespace after it are removed when both are there; otherwise [s]
    is returned as it is. *)
Definition strip_bearer (s : string) : string :=
  match match_ci "Bearer" s with
  | Some (String c r) => if is_js_space c then drop_spaces r else s
  | _ => s
  end.

Fixpoint all_chars (p : ascii -> bool) (s : string) : bool :=
  match s with
  | EmptyString => true
  | String c r => p c && all_chars p r
  end.

(** [s] begins with a whitespace character. *)
Definition starts_with_space (s : string) : bool :=
  match s with
  | EmptyString => false
  | String c _ => is_js_space c
  end.

(** [/^Bearer\s+/i.test(s)]: [s] begins with the word in any letter case
    and a whitespace character after it. *)
Definition has_bearer_prefix (s : string) : bool :=
  match match_ci "Bearer" s with
  | Some rest => starts_with_space rest
  | None => false
  end.

Definition is_slash (c : ascii) : bool := Ascii.eqb c "/"%char.

Fixpoint all_slashes (s : string) : bool :=
  match s with
  | EmptyString => true
  | String c r => is_slash c && all_slashes r
  end.

(** [s.replace(/\/+$/, "")]: the trailing run of slashes is removed. *)
Fixpoint strip_trailing_slashes (s : string) : string :=
  match s with
  | EmptyString => EmptyString
  | String c r => if all_slashes s then EmptyString
                  else String c (strip_trailing_slashes r)
  end.

(** Decimal rendering of a status code in a template literal. *)
Definition decimal (n : N) : string := NilZero.string_of_uint (N.to_uint n).

(** [strip_prefix p s = Some r] when [s = p ++ r]. *)
Fixpoint strip_prefix (p s : string) : option string :=
  match p with
  | EmptyString => Some s
  | String a p' =>
      match s with
      | EmptyString => None
      | String b s' => if Ascii.eqb a b then strip_prefix p' s' else None
      end
  end.

Section Values.
Context {number : Type}.

(** Possibly [undefined] value. *)
Definition jsv : Type := option (json number).

Fixpoint lookup (k : string) (fields : list (string * json number)) : jsv :=
  match fields with
  | [] => None
  | (k', v) :: rest => if String.eqb k k' then Some v else lookup k rest
  end.

(** [v.k] for a value [v] other than [null]: own property of an object;
    none of the property names the sources read exists on the prototype
    of an array, a string, a number or a boolean. *)
Definition prop (v : json number) (k : string) : jsv :=
  match v with
  | JObj fields => lookup k fields
  | _ => None
  end.

(** An object literal as [JSON.stringify] sees it: properties whose
    value is [undefined] are left out. *)
Fixpoint literal_fields (props : list (string * jsv))
  : list (string * json number) :=
  match props with
  | [] => []
  | (k, Some v) :: rest => (k, v) :: literal_fields rest
  | (_, None) :: rest => literal_fields rest
  end.

Definition obj_literal (props : list (string * jsv)) : json number :=
  JObj (literal_fields props).
End Values.

Arguments jsv number : clear implicits.

(** The built-ins of the JavaScript platform that the sources call. *)
Class Platform : Type := {
  number : Type;
  (** truthiness of a number ([0] and [NaN] are falsy) *)
  number_truthy : number -> bool;
  (** [JSON.stringify(v)] *)
  JSON_stringify : json number -> string;
  (** [JSON.stringify(v, null, indent)] *)
  JSON_stringify_indent : json number -> nat -> string;
  (** [JSON.parse(text)]; throws a SyntaxError *)
  JSON_parse : string -> outcome (json number);
  (** [new URL(url, base).pathname]; throws a TypeError *)
  URL_pathname : string -> string -> outcome string;
  (** the TypeError of [const { k, ... } = null] *)
  destructure_null_error : string -> js_error;
  (** the TypeError of [null.k] *)
  read_null_error : string -> js_error;
}.

Definition value {JS : Platform} : Type := json number.
Definition maybe {JS : Platform} : Type := jsv number.

(** Truthiness of a value. *)
Definition truthy {JS : Platform} (v : value) : bool :=
  match v with
  | JNull => false
  | JBool b => b
  | JNum n => number_truthy n
  | JStr s => string_truthy s
  | JArr _ => true
  | JObj _ => true
  end.

(** [a || null]. *)
Definition or_null {JS : Platform} (a : maybe) : value :=
  match a with
  | Some v => if truthy v then v else JNull
  | None => JNull
  end.

(* ================================================================== *)
(** * Computations with state and exceptions *)
(* ================================================================== *)

Definition M (W A : Type) : Type := W -> outcome A * W.

Definition ret {W A} (a : A) : M W A := fun w => (Ok a, w).

Definition throw {W A} (e : js_error) : M W A := fun w => (Throw e, w).

Definition bind {W A B} (m : M W A) (k : A -> M W B) : M W B :=
  fun w => match m w with
           | (Ok a, w') => k a w'
           | (Throw e, w') => (Throw e, w')
           end.

(** [try { m } catch (e) { h e }]. *)
Definition try_catch {W A} (m : M W A) (h : js_error -> M W A) : M W A :=
  fun w => match m w with
           | (Ok a, w') => (Ok a, w')
           | (Throw e, w') => h e w'
           end.

(** A pure computation that may throw. *)
Definition lift {W A} (o : outcome A) : M W A := fun w => (o, w).

Declare Scope js_scope.
Delimit Scope js_scope with js.
Notation "x <- m ;; k" := (bind m (fun x => k))
  (at level 61, m at next level, right associativity) : js_scope.
Notation "m1 ;;; m2" := (bind m1 (fun _ => m2))
  (at level 61, right associativity) : js_scope.
Open Scope js_scope.

(** [v.k], which throws when [v] is [null]. *)
Definition read {JS : Platform} {W} (v : value) (k : string) : M W maybe :=
  match v with
  | JNull => throw (read_null_error k)
  | _ => ret (prop v k)
  end.

(** The check a destructuring pattern [{ k, ... } = v] starts with. *)
Definition destructure {JS : Platform} {W} (v : value) (k : string)
  : M W unit :=
  match v with
  | JNull => throw (destructure_null_error k)
  | _ => ret tt
  end.

(* ================================================================== *)
(** * auth.ts: the credential store *)
(* ================================================================== *)

Module Auth.

(** What is found at [AUTH_FILE] inside [CONFIG_DIR]. *)
Inductive entry : Type :=
| Absent
| File (content : string)
| Directory.   (* exists, but is not a regular file *)

(** The part of the file system the module touches: [CONFIG_DIR] is
    missing, or it exists and holds [entry] under the name of
    [AUTH_FILE].  File modes are not tracked. *)
Inductive fs : Type :=
| NoConfigDir
| ConfigDir (auth_file : entry).

(** How the module is loaded.  [auth.ts] is written as an ES module
    (it has [import] and [export] declarations) and Node loads it as
    one; a build that compiles it to CommonJS is the other case. *)
Inductive module_scope : Type :=
| ESModule
| CommonJS.

Definition ENOENT : js_error := Error "ENOENT: no such file or directory".
Definition EISDIR : js_error :=
  Error "EISDIR: illegal operation on a directory".
Definition EPERM : js_error := Error "EPERM: operation not permitted".

(** [existsSync(AUTH_FILE)]; never throws. *)
Definition existsSync : M fs bool :=
  fun st => match st with
            | ConfigDir (File _) | ConfigDir Directory => (Ok true, st)
            | _ => (Ok false, st)
            end.

(** [readFileSync(AUTH_FILE, "utf-8")]. *)
Definition readFileSync : M fs string :=
  fun st => match st with
            | ConfigDir (File c) => (Ok c, st)
            | ConfigDir Directory => (Throw EISDIR, st)
            | _ => (Throw ENOENT, st)
            end.

(** [mkdirSync(CONFIG_DIR, { recursive: true })]. *)
Definition mkdirSync : M fs unit :=
  fun st => match st with
            | NoConfigDir => (Ok tt, ConfigDir Absent)
            | ConfigDir _ => (Ok tt, st)
            end.

(** [writeFileSync(AUTH_FILE, content, { mode: 0o600 })]. *)
Definition writeFileSync (content : string) : M fs unit :=
  fun st => match st with
            | NoConfigDir => (Throw ENOENT, st)
            | ConfigDir Directory => (Throw EISDIR, st)
            | ConfigDir _ => (Ok tt, ConfigDir (File content))
            end.

(** [unlinkSync(AUTH_FILE)]. *)
Definition unlinkSync : M fs unit :=
  fun st => match st with
            | ConfigDir (File _) => (Ok tt, ConfigDir Absent)
            | ConfigDir Directory => (Throw EPERM, st)
            | _ => (Throw ENOENT, st)
            end.

Definition base64url_alphabet : string :=
  "ABCDEFGHIJKLMNOPQRSTUVWXYZabcdefghijklmnopqrstuvwxyz0123456789-_".

Definition sextet (n : N) : ascii :=
  match String.get (N.to_nat n) base64url_alphabet with
  | Some c => c
  | None => "A"%char
  end.

(** [Buffer.prototype.toString("base64url")]: unpadded. *)
Fixpoint base64url (bytes : list Byte.byte) : string :=
  match bytes with
  | [] => ""
  | [a] =>
      let a := Byte.to_N a in
      String (sextet (N.shiftr a 2))
        (String (sextet (N.shiftl (N.land a 3) 4)) "")
  | [a; b] =>
      let a := Byte.to_N a in
      let b := Byte.to_N b in
      String (sextet (N.shiftr a 2))
        (String (sextet (N.lor (N.shiftl (N.land a 3) 4) (N.shiftr b 4)))
           (String (sextet (N.shiftl (N.land b 15) 2)) ""))
  | a :: b :: c :: rest =>
      let a := Byte.to_N a in
      let b := Byte.to_N b in
      let c := Byte.to_N c in
      String (sextet (N.shiftr a 2))
        (String (sextet (N.lor (N.shiftl (N.land a 3) 4) (N.shiftr b 4)))
           (String (sextet (N.lor (N.shiftl (N.land b 15) 2) (N.shiftr c 6)))
              (String (sextet (N.land c 63)) (base64url rest))))
  end.

Section WithPlatform.
Context {JS : Platform}.

Definition readStoredToken : M fs value :=
  try_catch
    (present <- existsSync ;;
     if negb present then ret JNull
     else
       raw <- readFileSync ;;
       data <- lift (JSON_parse raw) ;;
       token <- read data "token" ;;
       ret (or_null token))
    (fun _ => ret JNull).

(** [env] is [process.env.QMD_AUTH_TOKEN]. *)
Definition getAuthToken (env : option string) : M fs value :=
  match env with
  | Some t => if string_truthy t then ret (JStr t) else readStoredToken
  | None => readStoredToken
  end.

(** [random] is the result of [randomBytes(32)], [now] that of
    [new Date().toISOString()]. *)
Definition generateToken (random : list Byte.byte) (now : string)
  : M fs string :=
  let token := base64url random in
  mkdirSync ;;;
  let config := obj_literal [("token", Some (JStr token));
                             ("createdAt", Some (JStr now))] in
  writeFileSync (JSON_stringify_indent config 2 ++ String "010" "") ;;;
  ret token.

(** [const { unlinkSync } = require("fs")], the first statement of the
    branch that deletes.  [unlinkSync] is not among the names the
    module imports, so it is fetched through [require]; in an ES
    module the identifier [require] is not bound and evaluating the
    call throws a ReferenceError, in a CommonJS build the call returns
    the [fs] module. *)
Definition require_fs (scope : module_scope) : M fs unit :=
  match scope with
  | ESModule => throw (Error "require is not defined")
  | CommonJS => ret tt
  end.

Definition revokeToken (scope : module_scope) : M fs bool :=
  try_catch
    (present <- existsSync ;;
     if present then require_fs scope ;;; unlinkSync ;;; ret true
     else ret false)
    (fun _ => ret false).
End WithPlatform.

End Auth.

(* ================================================================== *)
(** * The inference engine ([LlamaCpp] in llm.js) *)
(* ================================================================== *)

(** One invocation of an engine method, with its arguments as the caller
    passes them. *)
Inductive call {JS : Platform} : Type :=
| CallEmbed (text options : maybe)
| CallEmbedBatch (texts : maybe)
| CallGenerate (prompt options : maybe)
| CallExpandQuery (query options : maybe)
| CallRerank (query documents options : maybe)
| CallTokenize (text : maybe)
| CallCountTokens (text : maybe)
| CallDetokenize (tokens : maybe)
| CallModelExists (model : maybe)
| CallGetDeviceInfo.

(** The engine is a black box with a state of its own: every method maps
    a state to a result, or a thrown error, and a new state. *)
Record LLM {JS : Platform} (S : Type) : Type := {
  embed : maybe -> maybe -> M S value;
  embedBatch : maybe -> M S value;
  generate : maybe -> maybe -> M S value;
  expandQuery : maybe -> maybe -> M S value;
  rerank : maybe -> maybe -> maybe -> M S value;
  tokenize : maybe -> M S (list number);
  countTokens : maybe -> M S number;
  detokenize : maybe -> M S string;
  modelExists : maybe -> M S value;
  getDeviceInfo : M S value;
}.

Arguments embed {_ S} _ _ _ _.
Arguments embedBatch {_ S} _ _ _.
Arguments generate {_ S} _ _ _ _.
Arguments expandQuery {_ S} _ _ _ _.
Arguments rerank {_ S} _ _ _ _ _.
Arguments tokenize {_ S} _ _ _.
Arguments countTokens {_ S} _ _ _.
Arguments detokenize {_ S} _ _ _.
Arguments modelExists {_ S} _ _ _.
Arguments getDeviceInfo {_ S} _ _.

(** The state of the serving process: the engine's state, and the engine
    calls made so far, oldest first. *)
Record world {JS : Platform} (S : Type) : Type := World {
  engine_state : S;
  engine_calls : list call;
}.

Arguments World {_ S} _ _.
Arguments engine_state {_ S} _.
Arguments engine_calls {_ S} _.

(** [await llm.method(args)]: the call is recorded, then run. *)
Definition invoke {JS : Platform} {S A} (c : call) (method : M S A)
  : M (world S) A :=
  fun w => let (r, s') := method (engine_state w) in
           (r, World s' (engine_calls w ++ [c])).

(* ================================================================== *)
(** * remote-server.ts: the inference server *)
(* ================================================================== *)

Module Server.

(** An incoming message as the handler reads it. *)
Record request : Type := Request {
  req_url : option string;            (* req.url *)
  req_host : option string;           (* req.headers.host *)
  req_method : option string;         (* req.method *)
  req_authorization : option string;  (* req.headers.authorization *)
  req_body : outcome string;          (* the stream read to its end *)
}.

(** What [sendJSON] writes; the two headers it sets are a constant and
    the length of [body]. *)
Record response : Type := Response {
  status : N;
  body : string;
}.

Section WithPlatform.
Context {JS : Platform} {S : Type}.

Definition readBody {W} (req : request) : M W string :=
  lift (req_body req).

Definition sendJSON {W} (status : N) (data : value) : M W response :=
  ret (Response status (JSON_stringify data)).

Definition sendError {W} (status : N) (msg : string) : M W response :=
  sendJSON status (obj_literal [("error", Some (JStr msg))]).

(** [Array.from(tokens)] on the engine's token list. *)
Definition array_of_tokens (tokens : list number) : value :=
  JArr (map JNum tokens).

(** [provided !== authToken], for a truthy [authToken]. *)
Definition rejected (authToken : string) (req : request) : bool :=
  match option_map strip_bearer (req_authorization req) with
  | Some provided => negb (String.eqb provided authToken)
  | None => true
  end.

Variable llm : LLM S.

(** The [switch (path)] of the handler. *)
Definition route (path : string) (body : value) : M (world S) response :=
  if path =? "/embed" then
    destructure body "text" ;;;
    let text := prop body "text" in
    let options := prop body "options" in
    result <- invoke (CallEmbed text options) (embed llm text options) ;;
    sendJSON 200 result
  else if path =? "/embed-batch" then
    destructure body "texts" ;;;
    let texts := prop body "texts" in
    result <- invoke (CallEmbedBatch texts) (embedBatch llm texts) ;;
    sendJSON 200 result
  else if path =? "/generate" then
    destructure body "prompt" ;;;
    let prompt := prop body "prompt" in
    let options := prop body "options" in
    result <- invoke (CallGenerate prompt options)
                (generate llm prompt options) ;;
    sendJSON 200 result
  else if path =? "/expand-query" then
    destructure body "query" ;;;
    let query := prop body "query" in
    let options := prop body "options" in
    result <- invoke (CallExpandQuery query options)
                (expandQuery llm query options) ;;
    sendJSON 200 result
  else if path =? "/rerank" then
    destructure body "query" ;;;
    let query := prop body "query" in
    let documents := prop body "documents" in
    let options := prop body "options" in
    result <- invoke (CallRerank query documents options)
                (rerank llm query documents options) ;;
    sendJSON 200 result
  else if path =? "/tokenize" then
    destructure body "text" ;;;
    let text := prop body "text" in
    tokens <- invoke (CallTokenize text) (tokenize llm text) ;;
    sendJSON 200 (obj_literal [("tokens", Some (array_of_tokens tokens))])
  else if path =? "/count-tokens" then
    destructure body "text" ;;;
    let text := prop body "text" in
    count <- invoke (CallCountTokens text) (countTokens llm text) ;;
    sendJSON 200 (obj_literal [("count", Some (JNum count))])
  else if path =? "/detokenize" then
    destructure body "tokens" ;;;
    let tokens := prop body "tokens" in
    text <- invoke (CallDetokenize tokens) (detokenize llm tokens) ;;
    sendJSON 200 (obj_literal [("text", Some (JStr text))])
  else if path =? "/model-exists" then
    destructure body "model" ;;;
    let model := prop body "model" in
    result <- invoke (CallModelExists model) (modelExists llm model) ;;
    sendJSON 200 result
  else
    sendError 404 ("Unknown route: " ++ path).

(** The request listener of [createServer], for the server's
    [authToken]; [uptime] is what [process.uptime()] returns while
    the request is handled.  A [Throw] is a rejection of the
    listener's promise: nothing has been written to the response. *)
Definition handler (authToken : option string) (uptime : number)
    (req : request) : M (world S) response :=
  path <- lift (URL_pathname (or_string (req_url req) "/")
                  ("http://" ++ or_string (req_host req) "localhost")) ;;
  let method := option_map toUpperCase (req_method req) in
  let method_is m :=
    match method with Some m' => m' =? m | None => false end in
  (* Auth check *)
  if match authToken with
     | Some token => string_truthy token && rejected token req
     | None => false
     end
  then sendError 401 "Unauthorized"
  (* Health check *)
  else if (path =? "/health") && method_is "GET" then
    sendJSON 200 (obj_literal [("status", Some (JStr "ok"));
                               ("uptime", Some (JNum uptime))])
  (* Device info *)
  else if (path =? "/device") && method_is "GET" then
    try_catch
      (info <- invoke CallGetDeviceInfo (getDeviceInfo llm) ;;
       sendJSON 200 info)
      (fun err => sendError 500 (message err))
  (* All other routes are POST with JSON body *)
  else if negb (method_is "POST") then sendError 405 "Method not allowed"
  else
    parsed <- try_catch
                (raw <- readBody req ;;
                 body <- lift (JSON_parse raw) ;;
                 ret (Some body))
                (fun _ => ret None) ;;
    match parsed with
    | None => sendError 400 "Invalid JSON body"
    | Some body =>
        try_catch (route path body)
          (fun err =>
             sendError 500
               (or_string (Some (message err)) "Internal server error"))
    end.

(** The serving process.  A promise rejected by the listener is left
    unhandled, which ends the process. *)
Record process : Type := Process {
  listening : bool;
  state : world S;
}.

(** One request arrives: [Some r] is the response sent, [None] that
    the connection got no response. *)
Definition accept (authToken : option string) (p : process)
    (arrival : number * request) : option response * process :=
  if listening p then
    match handler authToken (fst arrival) (snd arrival) (state p) with
    | (Ok r, w) => (Some r, Process true w)
    | (Throw _, w) => (None, Process false w)
    end
  else (None, p).

Fixpoint serve (authToken : option string) (p : process)
    (arrivals : list (number * request))
  : list (option response) * process :=
  match arrivals with
  | [] => ([], p)
  | a :: rest =>
      let (r, p') := accept authToken p a in
      let (rs, p'') := serve authToken p' rest in
      (r :: rs, p'')
  end.
End WithPlatform.

End Server.

(* ================================================================== *)
(** * remote-llm.ts: the proxy client *)
(* ================================================================== *)

Module Client.

Record RemoteLLMConfig : Type := {
  url : string;
  cfg_authToken : option string;
  cfg_timeoutMs : option N;
}.

Record RemoteLLM : Type := {
  baseUrl : string;
  authToken : option string;
  timeoutMs : N;
}.

(** The constructor. *)
Definition new_RemoteLLM (config : RemoteLLMConfig) : RemoteLLM :=
  {| baseUrl := strip_trailing_slashes (url config);
     authToken := cfg_authToken config;
     timeoutMs := match cfg_timeoutMs config with
                  | Some t => t
                  | None => 120000%N
                  end |}.

(** The second argument of [fetch]. *)
Record fetch_init : Type := FetchInit {
  fetch_method : string;
  content_type : option string;
  authorization : option string;
  fetch_body : option string;
}.

(** A [Response]: its status, and its body read as text, which can
    fail. *)
Record fetch_response : Type := FetchResponse {
  resp_status : N;
  resp_text : outcome string;
}.

(** [resp.ok]. *)
Definition resp_ok (resp : fetch_response) : bool :=
  ((200 <=? resp_status resp) && (resp_status resp <=? 299))%N.

Section WithPlatform.
Context {JS : Platform} {W : Type}.

(** [fetch(url, init)]: a response, or a rejection (connection
    refused, abort by the deadline timer, ...). *)
Variable fetch : string -> fetch_init -> M W fetch_response.

(** [resp.json()]. *)
Definition resp_json (resp : fetch_response) : M W value :=
  text <- lift (resp_text resp) ;;
  lift (JSON_parse text).

Definition bearer (self : RemoteLLM) : option string :=
  match authToken self with
  | Some token =>
      if string_truthy token then Some ("Bearer " ++ token) else None
  | None => None
  end.

Definition failure (path : string) (resp : fetch_response) : js_error :=
  let text := match resp_text resp with Ok t => t | Throw _ => "" end in
  Error ("QMD remote " ++ path ++ " failed ("
         ++ decimal (resp_status resp) ++ "): " ++ text).

Definition post (self : RemoteLLM) (path : string) (body : value)
  : M W value :=
  let url := baseUrl self ++ path in
  resp <- fetch url (FetchInit "POST" (Some "application/json")
                       (bearer self) (Some (JSON_stringify body))) ;;
  if negb (resp_ok resp) then throw (failure path resp)
  else resp_json resp.

Definition get (self : RemoteLLM) (path : string) : M W value :=
  let url := baseUrl self ++ path in
  resp <- fetch url (FetchInit "GET" None (bearer self) None) ;;
  if negb (resp_ok resp) then throw (failure path resp)
  else resp_json resp.

Definition embed (self : RemoteLLM) (text : string) (options : maybe)
  : M W maybe :=
  r <- post self "/embed"
         (obj_literal [("text", Some (JStr text)); ("options", options)]) ;;
  ret (Some r).

Definition generate (self : RemoteLLM) (prompt : string) (options : maybe)
  : M W maybe :=
  r <- post self "/generate"
         (obj_literal [("prompt", Some (JStr prompt));
                       ("options", options)]) ;;
  ret (Some r).

Definition modelExists (self : RemoteLLM) (model : string) : M W maybe :=
  r <- post self "/model-exists"
         (obj_literal [("model", Some (JStr model))]) ;;
  ret (Some r).

Definition expandQuery (self : RemoteLLM) (query : string)
    (options : maybe) : M W maybe :=
  r <- post self "/expand-query"
         (obj_literal [("query", Some (JStr query));
                       ("options", options)]) ;;
  ret (Some r).

Definition rerank (self : RemoteLLM) (query : string)
    (documents : list value) (options : maybe) : M W maybe :=
  r <- post self "/rerank"
         (obj_literal [("query", Some (JStr query));
                       ("documents", Some (JArr documents));
                       ("options", options)]) ;;
  ret (Some r).

Definition dispose (self : RemoteLLM) : M W unit := ret tt.

Definition embedBatch (self : RemoteLLM) (texts : list string)
  : M W maybe :=
  r <- post self "/embed-batch"
         (obj_literal [("texts", Some (JArr (map JStr texts)))]) ;;
  ret (Some r).

Definition tokenize (self : RemoteLLM) (text : string) : M W maybe :=
  result <- post self "/tokenize"
              (obj_literal [("text", Some (JStr text))]) ;;
  read result "tokens".

Definition countTokens (self : RemoteLLM) (text : string) : M W maybe :=
  result <- post self "/count-tokens"
              (obj_literal [("text", Some (JStr text))]) ;;
  read result "count".

Definition detokenize (self : RemoteLLM) (tokens : list number)
  : M W maybe :=
  result <- post self "/detokenize"
              (obj_literal [("tokens", Some (JArr (map JNum tokens)))]) ;;
  read result "text".

Definition getDeviceInfo (self : RemoteLLM) : M W maybe :=
  r <- get self "/device" ;;
  ret (Some r).
End WithPlatform.

End Client.

(* ================================================================== *)
(** * The operations, called on the engine and through the proxy *)
(* ================================================================== *)

(** An operation of the common interface with its arguments, typed as
    the interface declares them. *)
Inductive operation {JS : Platform} : Type :=
| Embed (text : string) (options : maybe)
| EmbedBatch (texts : list string)
| Generate (prompt : string) (options : maybe)
| ExpandQuery (query : string) (options : maybe)
| Rerank (query : string) (documents : list value) (options : maybe)
| Tokenize (text : string)
| CountTokens (text : string)
| Detokenize (tokens : list number)
| ModelExists (model : string)
| DeviceInfo.

Section Operations.
Context {JS : Platform}.

(** The path each operation is served on. *)
Definition path_of (op : operation) : string :=
  match op with
  | Embed _ _ => "/embed"
  | EmbedBatch _ => "/embed-batch"
  | Generate _ _ => "/generate"
  | ExpandQuery _ _ => "/expand-query"
  | Rerank _ _ _ => "/rerank"
  | Tokenize _ => "/tokenize"
  | CountTokens _ => "/count-tokens"
  | Detokenize _ => "/detokenize"
  | ModelExists _ => "/model-exists"
  | DeviceInfo => "/device"
  end.

(** The operation called on a proxy client. *)
Definition remote {W} (fetch : string -> Client.fetch_init ->
                               M W Client.fetch_response)
    (self : Client.RemoteLLM) (op : operation) : M W maybe :=
  match op with
  | Embed text options => Client.embed fetch self text options
  | EmbedBatch texts => Client.embedBatch fetch self texts
  | Generate prompt options => Client.generate fetch self prompt options
  | ExpandQuery query options => Client.expandQuery fetch self query options
  | Rerank query documents options =>
      Client.rerank fetch self query documents options
  | Tokenize text => Client.tokenize fetch self text
  | CountTokens text => Client.countTokens fetch self text
  | Detokenize tokens => Client.detokenize fetch self tokens
  | ModelExists model => Client.modelExists fetch self model
  | DeviceInfo => Client.getDeviceInfo fetch self
  end.

(** The operation called on the engine itself. *)
Definition direct {S} (llm : LLM S) (op : operation) : M (world S) maybe :=
  match op with
  | Embed text options =>
      r <- invoke (CallEmbed (Some (JStr text)) options)
             (embed llm (Some (JStr text)) options) ;;
      ret (Some r)
  | EmbedBatch texts =>
      let texts := Some (JArr (map JStr texts)) in
      r <- invoke (CallEmbedBatch texts) (embedBatch llm texts) ;;
      ret (Some r)
  | Generate prompt options =>
      r <- invoke (CallGenerate (Some (JStr prompt)) options)
             (generate llm (Some (JStr prompt)) options) ;;
      ret (Some r)
  | ExpandQuery query options =>
      r <- invoke (CallExpandQuery (Some (JStr query)) options)
             (expandQuery llm (Some (JStr query)) options) ;;
      ret (Some r)
  | Rerank query documents options =>
      let documents := Some (JArr documents) in
      r <- invoke (CallRerank (Some (JStr query)) documents options)
             (rerank llm (Some (JStr query)) documents options) ;;
      ret (Some r)
  | Tokenize text =>
      tokens <- invoke (CallTokenize (Some (JStr text)))
                  (tokenize llm (Some (JStr text))) ;;
      ret (Some (JArr (map JNum tokens)))
  | CountTokens text =>
      count <- invoke (CallCountTokens (Some (JStr text)))
                 (countTokens llm (Some (JStr text))) ;;
      ret (Some (JNum count))
  | Detokenize tokens =>
      let tokens := Some (JArr (map JNum tokens)) in
      text <- invoke (CallDetokenize tokens) (detokenize llm tokens) ;;
      ret (Some (JStr text))
  | ModelExists model =>
      r <- invoke (CallModelExists (Some (JStr model)))
             (modelExists llm (Some (JStr model))) ;;
      ret (Some r)
  | DeviceInfo =>
      r <- invoke CallGetDeviceInfo (getDeviceInfo llm) ;;
      ret (Some r)
  end.

(** The request body the proxy sends for an operation (section 6 of the
    specification); [None] for the body-less GET of device-info. *)
Definition request_envelope (op : operation) : maybe :=
  match op with
  | Embed text options =>
      Some (obj_literal [("text", Some (JStr text)); ("options", options)])
  | EmbedBatch texts =>
      Some (obj_literal [("texts", Some (JArr (map JStr texts)))])
  | Generate prompt options =>
      Some (obj_literal [("prompt", Some (JStr prompt));
                         ("options", options)])
  | ExpandQuery query options =>
      Some (obj_literal [("query", Some (JStr query));
                         ("options", options)])
  | Rerank query documents options =>
      Some (obj_literal [("query", Some (JStr query));
                         ("documents", Some (JArr documents));
                         ("options", options)])
  | Tokenize text => Some (obj_literal [("text", Some (JStr text))])
  | CountTokens text => Some (obj_literal [("text", Some (JStr text))])
  | Detokenize tokens =>
      Some (obj_literal [("tokens", Some (JArr (map JNum tokens)))])
  | ModelExists model => Some (obj_literal [("model", Some (JStr model))])
  | DeviceInfo => None
  end.

(** The response body for an operation's result (section 6): the
    result itself, or wrapped for tokenize, count-tokens, detokenize. *)
Definition response_envelope (op : operation) (result : value) : value :=
  match op with
  | Tokenize _ => obj_literal [("tokens", Some result)]
  | CountTokens _ => obj_literal [("count", Some result)]
  | Detokenize _ => obj_literal [("text", Some result)]
  | _ => result
  end.

(** [v] survives the wire: parsing its serialisation gives it back. *)
Definition wire_ok (v : value) : Prop :=
  JSON_parse (JSON_stringify v) = Ok v.

(** An HTTP exchange without loss: a [fetch] of [origin ++ target]
    reaches the listener as a request for [target] with the method,
    the Authorization header and the body of the call, and the
    listener's response comes back; a listener that sends nothing, or
    another origin, is a failed fetch.  This is the exchange once the
    header values are on the wire; what [fetch] does to a header value
    before that is in [http_exchange] below. *)
Definition exchange {W} (origin host : string)
    (listener : Server.request -> M W Server.response)
    (url : string) (init : Client.fetch_init) : M W Client.fetch_response :=
  match strip_prefix origin url with
  | Some target =>
      fun w =>
        match listener
                (Server.Request (Some target) (Some host)
                   (Some (Client.fetch_method init))
                   (Client.authorization init)
                   (Ok (match Client.fetch_body init with
                        | Some b => b
                        | None => ""
                        end))) w with
        | (Ok r, w') =>
            (Ok (Client.FetchResponse (Server.status r)
                   (Ok (Server.body r))), w')
        | (Throw _, w') => (Throw (Error "fetch failed"), w')
        end
  | None => throw (Error "fetch failed")
  end.

(** HTTP whitespace: tab, line feed, carriage return, space. *)
Definition is_http_whitespace (c : ascii) : bool :=
  let n := N_of_ascii c in
  ((n =? 9) || (n =? 10) || (n =? 13) || (n =? 32))%N.

Fixpoint drop_http_whitespace (s : string) : string :=
  match s with
  | EmptyString => EmptyString
  | String c r => if is_http_whitespace c then drop_http_whitespace r else s
  end.

Fixpoint drop_trailing_http_whitespace (s : string) : string :=
  match s with
  | EmptyString => EmptyString
  | String c r =>
      match drop_trailing_http_whitespace r with
      | EmptyString => if is_http_whitespace c then EmptyString
                       else String c EmptyString
      | r' => String c r'
      end
  end.

(** A header value is normalised when it enters a [Headers] object:
    HTTP whitespace is removed from both ends. *)
Definition normalize_header_value (v : string) : string :=
  drop_trailing_http_whitespace (drop_http_whitespace v).

(** The bytes a header value can be sent with: tab, the printable
    ASCII characters with the space, and 0x80 to 0xFF. *)
Definition is_header_byte (c : ascii) : bool :=
  let n := N_of_ascii c in
  ((n =? 9) || (32 <=? n) && (n <=? 126) || (128 <=? n))%N.

(** What becomes of a header value given to [fetch]: it is normalised,
    and the call is rejected when a character of it cannot be sent. *)
Definition header_value (v : string) : outcome string :=
  let v' := normalize_header_value v in
  if all_chars is_header_byte v' then Ok v' else Throw (Error "fetch failed").

(** An HTTP exchange as [fetch] and the HTTP parser of the server carry
    it out: the Authorization header reaches the listener normalised,
    or the call is rejected before anything is sent; the rest is as in
    [exchange]. *)
Definition http_exchange {W} (origin host : string)
    (listener : Server.request -> M W Server.response)
    (url : string) (init : Client.fetch_init) : M W Client.fetch_response :=
  match Client.authorization init with
  | None => exchange origin host listener url init
  | Some v =>
      match header_value v with
      | Ok v' =>
          exchange origin host listener url
            (Client.FetchInit (Client.fetch_method init)
               (Client.content_type init) (Some v') (Client.fetch_body init))
      | Throw e => throw e
      end
  end.

(** [s] ends with HTTP whitespace. *)
Fixpoint ends_with_http_whitespace (s : string) : bool :=
  match s with
  | EmptyString => false
  | String c EmptyString => is_http_whitespace c
  | String _ r => ends_with_http_whitespace r
  end.

(** A token that reaches the server as it is when sent as
    [Bearer <token>], and is left as it is when the server removes the
    prefix: made of bytes a header can hold, with no whitespace at its
    start and no HTTP whitespace at its end. *)
Definition header_token (token : string) : bool :=
  all_chars is_header_byte token
  && negb (starts_with_space token)
  && negb (ends_with_http_whitespace token).
End Operations.

(* ================================================================== *)
(** * An executable platform *)
(* ================================================================== *)

(** A platform to run the model on: integers for numbers, a JSON printer
    and parser for integer-valued documents in Latin-1, and a URL parser
    for plain absolute paths.  The parsers are partial: on the inputs
    they accept they give what the built-ins give, and they throw on
    every other input (fractions, exponents, escapes above [u00ff],
    paths with dots or percent signs), also where a built-in would not. *)
Module Node.

Definition dquote : ascii := "034"%char.
Definition backslash : ascii := "092"%char.
Definition newline : ascii := "010"%char.

Definition quoted (s : string) : string :=
  String dquote (s ++ String dquote "").

Definition hex_digit (n : N) : ascii :=
  if (n <? 10)%N then ascii_of_N (48 + n) else ascii_of_N (87 + n).

Fixpoint escape (s : string) : string :=
  match s with
  | EmptyString => EmptyString
  | String c r =>
      let n := N_of_ascii c in
      if (n =? 34)%N then String backslash (String dquote (escape r))
      else if (n =? 92)%N then String backslash (String backslash (escape r))
      else if (n =? 8)%N then String backslash (String "b" (escape r))
      else if (n =? 9)%N then String backslash (String "t" (escape r))
      else if (n =? 10)%N then String backslash (String "n" (escape r))
      else if (n =? 12)%N then String backslash (String "f" (escape r))
      else if (n =? 13)%N then String backslash (String "r" (escape r))
      else if (n <? 32)%N then
        String backslash
          (String "u" (String "0" (String "0"
             (String (hex_digit (n / 16)) (String (hex_digit (n mod 16))
                (escape r))))))
      else String c (escape r)
  end.

Definition string_of_Z (z : Z) : string :=
  NilZero.string_of_int (Z.to_int z).

Fixpoint join (sep : string) (parts : list string) : string :=
  match parts with
  | [] => ""
  | [p] => p
  | p :: rest => p ++ sep ++ join sep rest
  end.

Fixpoint stringify (v : json Z) : string :=
  match v with
  | JNull => "null"
  | JBool true => "true"
  | JBool false => "false"
  | JNum n => string_of_Z n
  | JStr s => quoted (escape s)
  | JArr items => "[" ++ join "," (map stringify items) ++ "]"
  | JObj fields =>
      "{" ++ join ","
               (map (fun kv => quoted (escape (fst kv)) ++ ":"
                               ++ stringify (snd kv)) fields) ++ "}"
  end.

Fixpoint spaces (n : nat) : string :=
  match n with
  | O => ""
  | S n' => String " " (spaces n')
  end.

(** [JSON.stringify(v, null, indent)] at nesting depth [depth]. *)
Fixpoint stringify_at (indent depth : nat) (v : json Z) : string :=
  let inner := String newline (spaces (indent * S depth)) in
  let outer := String newline (spaces (indent * depth)) in
  match v with
  | JArr ((_ :: _) as items) =>
      "[" ++ inner
      ++ join ("," ++ inner) (map (stringify_at indent (S depth)) items)
      ++ outer ++ "]"
  | JObj ((_ :: _) as fields) =>
      "{" ++ inner
      ++ join ("," ++ inner)
           (map (fun kv => quoted (escape (fst kv)) ++ ": "
                           ++ stringify_at indent (S depth) (snd kv)) fields)
      ++ outer ++ "}"
  | _ => stringify v
  end.

Definition stringify_indent (v : json Z) (indent : nat) : string :=
  match indent with
  | O => stringify v
  | _ => stringify_at indent 0 v
  end.

Definition is_ws (c : ascii) : bool :=
  let n := N_of_ascii c in
  ((n =? 32) || (n =? 9) || (n =? 10) || (n =? 13))%N.

Fixpoint skip_ws (s : string) : string :=
  match s with
  | EmptyString => EmptyString
  | String c r => if is_ws c then skip_ws r else s
  end.

Definition hex_value (c : ascii) : option N :=
  let n := N_of_ascii c in
  if ((48 <=? n) && (n <=? 57))%N then Some (n - 48)%N
  else if ((97 <=? n) && (n <=? 102))%N then Some (n - 87)%N
  else if ((65 <=? n) && (n <=? 70))%N then Some (n - 55)%N
  else None.

(** The characters of a string literal after its opening quote, and
    the text after its closing quote. *)
Fixpoint parse_chars (s : string) : option (string * string) :=
  match s with
  | EmptyString => None
  | String c r =>
      let n := N_of_ascii c in
      if (n =? 34)%N then Some ("", r)
      else if (n <? 32)%N then None
      else if (n =? 92)%N then
        match r with
        | String e r' =>
            let plain (d : ascii) :=
              match parse_chars r' with
              | Some (t, rest) => Some (String d t, rest)
              | None => None
              end in
            let m := N_of_ascii e in
            if (m =? 34)%N then plain dquote
            else if (m =? 92)%N then plain backslash
            else if (m =? 47)%N then plain "/"%char
            else if (m =? 98)%N then plain "008"%char
            else if (m =? 116)%N then plain "009"%char
            else if (m =? 110)%N then plain "010"%char
            else if (m =? 102)%N then plain "012"%char
            else if (m =? 114)%N then plain "013"%char
            else if (m =? 117)%N then
              match r' with
              | String "0" (String "0" (String h (String l r''))) =>
                  match hex_value h, hex_value l, parse_chars r'' with
                  | Some a, Some b, Some (t, rest) =>
                      Some (String (ascii_of_N (16 * a + b)) t, rest)
                  | _, _, _ => None
                  end
              | _ => None
              end
            else None
        | EmptyString => None
        end
      else
        match parse_chars r with
        | Some (t, rest) => Some (String c t, rest)
        | None => None
        end
  end.

Definition is_digit (c : ascii) : bool :=
  let n := N_of_ascii c in ((48 <=? n) && (n <=? 57))%N.

Fixpoint parse_digits (acc : Z) (s : string) : Z * string :=
  match s with
  | String c r =>
      if is_digit c
      then parse_digits (10 * acc + Z.of_N (N_of_ascii c - 48)) r
      else (acc, s)
  | EmptyString => (acc, s)
  end.

(** An integer literal: no fraction, no exponent, no leading zero. *)
Definition parse_int (s : string) : option (Z * string) :=
  let unsigned (t : string) :=
    match t with
    | String c r =>
        let leading_zero :=
          Ascii.eqb c "0"
          && match r with String d _ => is_digit d | EmptyString => false end in
        if is_digit c && negb leading_zero then
          let (n, rest) := parse_digits 0 t in
          match rest with
          | String d _ =>
              if (Ascii.eqb d "." || Ascii.eqb d "e" || Ascii.eqb d "E")%bool
              then None else Some (n, rest)
          | EmptyString => Some (n, rest)
          end
        else None
    | EmptyString => None
    end in
  match s with
  | String "-" t =>
      match unsigned t with
      | Some (n, rest) => Some ((- n)%Z, rest)
      | None => None
      end
  | _ => unsigned s
  end.

(** Assignment to a property: an existing key keeps its place. *)
Fixpoint set_field (k : string) (v : json Z) (fields : list (string * json Z))
  : list (string * json Z) :=
  match fields with
  | [] => [(k, v)]
  | (k', v') :: rest =>
      if String.eqb k k' then (k, v) :: rest
      else (k', v') :: set_field k v rest
  end.

Definition keyword (word : string) (v : json Z) (s : string)
  : option (json Z * string) :=
  match strip_prefix word s with
  | Some rest => Some (v, rest)
  | None => None
  end.

Fixpoint parse_value (fuel : nat) (s : string) {struct fuel}
  : option (json Z * string) :=
  match fuel with
  | O => None
  | S fuel' =>
      match skip_ws s with
      | EmptyString => None
      | String c r =>
          if Ascii.eqb c "n" then keyword "ull" JNull r
          else if Ascii.eqb c "t" then keyword "rue" (JBool true) r
          else if Ascii.eqb c "f" then keyword "alse" (JBool false) r
          else if Ascii.eqb c dquote then
            match parse_chars r with
            | Some (t, rest) => Some (JStr t, rest)
            | None => None
            end
          else if Ascii.eqb c "[" then
            match skip_ws r with
            | String "]" rest => Some (JArr [], rest)
            | _ =>
                match parse_elements fuel' r with
                | Some (items, rest) => Some (JArr items, rest)
                | None => None
                end
            end
          else if Ascii.eqb c "{" then
            match skip_ws r with
            | String "}" rest => Some (JObj [], rest)
            | _ =>
                match parse_members fuel' [] r with
                | Some (fields, rest) => Some (JObj fields, rest)
                | None => None
                end
            end
          else
            match parse_int (String c r) with
            | Some (n, rest) => Some (JNum n, rest)
            | None => None
            end
      end
  end
with parse_elements (fuel : nat) (s : string) {struct fuel}
  : option (list (json Z) * string) :=
  match fuel with
  | O => None
  | S fuel' =>
      match parse_value fuel' s with
      | Some (v, r) =>
          match skip_ws r with
          | String "," r' =>
              match parse_elements fuel' r' with
              | Some (vs, rest) => Some (v :: vs, rest)
              | None => None
              end
          | String "]" rest => Some ([v], rest)
          | _ => None
          end
      | None => None
      end
  end
with parse_members (fuel : nat) (acc : list (string * json Z)) (s : string)
       {struct fuel} : option (list (string * json Z) * string) :=
  match fuel with
  | O => None
  | S fuel' =>
      match skip_ws s with
      | String c r =>
          if Ascii.eqb c dquote then
            match parse_chars r with
            | Some (k, r1) =>
                match skip_ws r1 with
                | String ":" r2 =>
                    match parse_value fuel' r2 with
                    | Some (v, r3) =>
                        let acc' := set_field k v acc in
                        match skip_ws r3 with
                        | String "," r4 => parse_members fuel' acc' r4
                        | String "}" rest => Some (acc', rest)
                        | _ => None
                        end
                    | None => None
                    end
                | _ => None
                end
            | None => None
            end
          else None
      | EmptyString => None
      end
  end.

Definition SyntaxError : js_error := Error "Unexpected token in JSON".

Definition parse (text : string) : outcome (json Z) :=
  match parse_value (2 * String.length text + 2) text with
  | Some (v, rest) =>
      match skip_ws rest with
      | EmptyString => Ok v
      | _ => Throw SyntaxError
      end
  | None => Throw SyntaxError
  end.

Definition is_letter (c : ascii) : bool :=
  let n := N_of_ascii c in
  ((65 <=? n) && (n <=? 90) || (97 <=? n) && (n <=? 122))%N.

Definition path_char (c : ascii) : bool :=
  is_letter c || is_digit c || Ascii.eqb c "/" || Ascii.eqb c "-"
  || Ascii.eqb c "_".

Definition host_char (c : ascii) : bool := is_letter c || Ascii.eqb c ".".

(** The text before the first [?] or [#]. *)
Fixpoint before_query (s : string) : string :=
  match s with
  | EmptyString => EmptyString
  | String c r =>
      if (Ascii.eqb c "?" || Ascii.eqb c "#")%bool then EmptyString
      else String c (before_query r)
  end.

Definition InvalidURL : js_error := Error "Invalid URL".

(** [new URL(target, base).pathname] for an origin-form [target] whose
    path is made of letters, digits, [-], [_] and [/] and does not
    begin with two slashes, and a base [http://host] with a host of
    letters and dots; anything else is refused. *)
Definition pathname (target base : string) : outcome string :=
  match strip_prefix "http://" base with
  | Some (String h _ as host) =>
      if is_letter h && all_chars host_char host then
        let p := before_query target in
        match p with
        | String "/" (String "/" _) => Throw InvalidURL
        | String "/" _ =>
            if all_chars path_char p then Ok p else Throw InvalidURL
        | _ => Throw InvalidURL
        end
      else Throw InvalidURL
  | _ => Throw InvalidURL
  end.

#[export] Instance platform : Platform := {|
  number := Z;
  number_truthy := fun z => negb (z =? 0)%Z;
  JSON_stringify := stringify;
  JSON_stringify_indent := stringify_indent;
  JSON_parse := parse;
  URL_pathname := pathname;
  destructure_null_error := fun k =>
    Error ("Cannot destructure property '" ++ k
           ++ "' of 'body' as it is null.");
  read_null_error := fun k =>
    Error ("Cannot read properties of null (reading '" ++ k ++ "')");
|}.

End Node.

(** Two engines to run the server on: [engine] answers every call and
    counts them in its state; [broken msg] throws [Error msg] on every
    call. *)
Module Demo.
Import Node.

Definition answer {A} (a : A) : M nat A := fun n => (Ok a, S n).

Definition codes (s : string) : list Z :=
  map (fun c => Z.of_N (N_of_ascii c)) (list_ascii_of_string s).

Definition text_of (v : jsv Z) : string :=
  match v with Some (JStr s) => s | _ => "" end.

Definition chars_of (v : jsv Z) : string :=
  match v with
  | Some (JArr items) =>
      string_of_list_ascii
        (map (fun t => match t with
                       | JNum z => ascii_of_N (Z.to_N z)
                       | _ => " "%char
                       end) items)
  | _ => ""
  end.

Definition embedding (text : jsv Z) : json Z :=
  match text with
  | Some (JStr s) =>
      JObj [("embedding", JArr (map JNum (codes s)));
            ("model", JStr "embeddinggemma")]
  | _ => JNull
  end.

Definition engine : LLM nat := {|
  embed := fun text _ => answer (embedding text);
  embedBatch := fun texts =>
    answer (match texts with
            | Some (JArr items) =>
                JArr (map (fun t => embedding (Some t)) items)
            | _ => JArr []
            end);
  generate := fun prompt _ =>
    answer (JObj [("text", JStr (text_of prompt)); ("model", JStr "qwen");
                  ("done", JBool true)]);
  expandQuery := fun query _ =>
    answer (JArr [JObj [("type", JStr "lex");
                        ("text", JStr (text_of query))]]);
  rerank := fun _ documents _ =>
    answer (JObj [("results", match documents with
                              | Some d => d
                              | None => JArr []
                              end);
                  ("model", JStr "reranker")]);
  tokenize := fun text => answer (codes (text_of text));
  countTokens := fun text =>
    answer (Z.of_nat (String.length (text_of text)));
  detokenize := fun tokens => answer (chars_of tokens);
  modelExists := fun model =>
    answer (JObj [("name", JStr (text_of model)); ("exists", JBool true)]);
  getDeviceInfo :=
    answer (JObj [("gpu", JBool false); ("gpuOffloading", JBool false);
                  ("gpuDevices", JArr []); ("cpuCores", JNum 8%Z)]);
|}.

Definition broken (msg : string) : LLM nat := {|
  embed := fun _ _ => throw (Error msg);
  embedBatch := fun _ => throw (Error msg);
  generate := fun _ _ => throw (Error msg);
  expandQuery := fun _ _ => throw (Error msg);
  rerank := fun _ _ _ => throw (Error msg);
  tokenize := fun _ => throw (Error msg);
  countTokens := fun _ => throw (Error msg);
  detokenize := fun _ => throw (Error msg);
  modelExists := fun _ => throw (Error msg);
  getDeviceInfo := throw (Error msg);
|}.

(** A fresh process: the engine has served nothing. *)
Definition start : world nat := World 0 [].

Definition GET (target : string) (authorization : option string)
  : Server.request :=
  Server.Request (Some target) (Some "localhost") (Some "GET")
    authorization (Ok "").

Definition POST (target : string) (authorization : option string)
    (body : string) : Server.request :=
  Server.Request (Some target) (Some "localhost") (Some "POST")
    authorization (Ok body).

(** Thirty-two bytes of entropy. *)
Definition entropy : list Byte.byte :=
  [Byte.x00; Byte.x01; Byte.x02; Byte.x03; Byte.x04; Byte.x05; Byte.x06;
   Byte.x07; Byte.xf8; Byte.xf9; Byte.xfa; Byte.xfb; Byte.xfc; Byte.xfd;
   Byte.xfe; Byte.xff; Byte.x10; Byte.x20; Byte.x30; Byte.x40; Byte.x50;
   Byte.x60; Byte.x70; Byte.x80; Byte.x90; Byte.xa0; Byte.xb0; Byte.xc0;
   Byte.xd0; Byte.xe0; Byte.xf0; Byte.x7f].
End Demo.

(* ================================================================== *)
(** * Specification-level definitions *)
(* ================================================================== *)

Section Specification.
Context {JS : Platform}.

(** The token the persisted file holds, by the words of section 4.1:
    the token field of the parsed file, absent ([null]) when the file
    is missing, unparsable or has no token in that field. *)
Definition stored_token (st : Auth.fs) : value :=
  match st with
  | Auth.ConfigDir (Auth.File text) =>
      match JSON_parse text with
      | Ok (JObj fields) =>
          match lookup "token" fields with
          | Some v => if truthy v then v else JNull
          | None => JNull
          end
      | _ => JNull
      end
  | _ => JNull
  end.

(** The active token: the environment's when it supplies a non-empty
    one, the stored token otherwise. *)
Definition current_token (env : option string) (st : Auth.fs) : value :=
  match env with
  | Some (String _ _ as t) => JStr t
  | _ => stored_token st
  end.

(** The persisted credential record. *)
Definition credential (token now : string) : value :=
  JObj [("token", JStr token); ("createdAt", JStr now)].
End Specification.

Section ServerSpecification.
Context {JS : Platform} {S : Type}.

(** A request passes the authentication step of section 4.2: no
    token is configured (an empty one counts as none), or the
    Authorization header is there and, with its Bearer prefix removed,
    equals the token. *)
Definition authenticated (authToken : option string)
    (req : Server.request) : bool :=
  match authToken with
  | Some (String _ _ as token) =>
      match Server.req_authorization req with
      | Some h => strip_bearer h =? token
      | None => false
      end
  | _ => true
  end.

(** The method of a request, upper-cased, is [m]. *)
Definition method_is (req : Server.request) (m : string) : bool :=
  match Server.req_method req with
  | Some m' => toUpperCase m' =? m
  | None => false
  end.

(** The POST routes of section 6. *)
Definition inference_paths : list string :=
  ["/embed"; "/embed-batch"; "/generate"; "/expand-query"; "/rerank";
   "/tokenize"; "/count-tokens"; "/detokenize"; "/model-exists"].

(** The engine call a POST route makes for a parsed body (section 6);
    [None] for a path that is no inference route. *)
Definition called (path : string) (body : value) : option call :=
  if path =? "/embed" then
    Some (CallEmbed (prop body "text") (prop body "options"))
  else if path =? "/embed-batch" then
    Some (CallEmbedBatch (prop body "texts"))
  else if path =? "/generate" then
    Some (CallGenerate (prop body "prompt") (prop body "options"))
  else if path =? "/expand-query" then
    Some (CallExpandQuery (prop body "query") (prop body "options"))
  else if path =? "/rerank" then
    Some (CallRerank (prop body "query") (prop body "documents")
            (prop body "options"))
  else if path =? "/tokenize" then Some (CallTokenize (prop body "text"))
  else if path =? "/count-tokens" then
    Some (CallCountTokens (prop body "text"))
  else if path =? "/detokenize" then
    Some (CallDetokenize (prop body "tokens"))
  else if path =? "/model-exists" then
    Some (CallModelExists (prop body "model"))
  else None.

(** The first property a route takes from the body. *)
Definition first_property (c : call) : string :=
  match c with
  | CallEmbed _ _ => "text"
  | CallEmbedBatch _ => "texts"
  | CallGenerate _ _ => "prompt"
  | CallExpandQuery _ _ => "query"
  | CallRerank _ _ _ => "query"
  | CallTokenize _ => "text"
  | CallCountTokens _ => "text"
  | CallDetokenize _ => "tokens"
  | CallModelExists _ => "model"
  | CallGetDeviceInfo => ""
  end.

(** The engine operation a call stands for, its result as a value. *)
Definition perform (llm : LLM S) (c : call) : M S value :=
  match c with
  | CallEmbed text options => embed llm text options
  | CallEmbedBatch texts => embedBatch llm texts
  | CallGenerate prompt options => generate llm prompt options
  | CallExpandQuery query options => expandQuery llm query options
  | CallRerank query documents options =>
      rerank llm query documents options
  | CallTokenize text =>
      tokens <- tokenize llm text ;; ret (JArr (map JNum tokens))
  | CallCountTokens text => n <- countTokens llm text ;; ret (JNum n)
  | CallDetokenize tokens => t <- detokenize llm tokens ;; ret (JStr t)
  | CallModelExists model => modelExists llm model
  | CallGetDeviceInfo => getDeviceInfo llm
  end.

(** The response body for the result of a call (section 6). *)
Definition wrapped (c : call) (result : value) : value :=
  match c with
  | CallTokenize _ => JObj [("tokens", result)]
  | CallCountTokens _ => JObj [("count", result)]
  | CallDetokenize _ => JObj [("text", result)]
  | _ => result
  end.

(** The error envelope [{error: msg}], serialised. *)
Definition error_body (msg : string) : string :=
  JSON_stringify (JObj [("error", JStr msg)]).

(** The body of the health endpoint. *)
Definition health_body (uptime : number) : string :=
  JSON_stringify (JObj [("status", JStr "ok"); ("uptime", JNum uptime)]).

(** The state after the engine has served call [c]. *)
Definition after (w : world S) (c : call) (s : S) : world S :=
  World s (engine_calls w ++ [c]).

Definition reply (status : N) (body : string) (w : world S)
  : outcome Server.response * world S :=
  (Ok (Server.Response status body), w).

(** The message of a 500 response of a POST route. *)
Definition failure_message (e : js_error) : string :=
  match message e with
  | EmptyString => "Internal server error"
  | msg => msg
  end.

(** Steps 3 to 9 of the per-request algorithm of section 4.2, for an
    authenticated request with path [path]. *)
Definition respond (llm : LLM S) (uptime : number) (req : Server.request)
    (path : string) (w : world S) : outcome Server.response * world S :=
  if (path =? "/health") && method_is req "GET" then
    reply 200 (health_body uptime) w
  else if (path =? "/device") && method_is req "GET" then
    match perform llm CallGetDeviceInfo (engine_state w) with
    | (Ok info, s) =>
        reply 200 (JSON_stringify info) (after w CallGetDeviceInfo s)
    | (Throw e, s) =>
        reply 500 (error_body (message e)) (after w CallGetDeviceInfo s)
    end
  else if negb (method_is req "POST") then
    reply 405 (error_body "Method not allowed") w
  else
    match Server.req_body req with
    | Throw _ => reply 400 (error_body "Invalid JSON body") w
    | Ok raw =>
        match JSON_parse raw with
        | Throw _ => reply 400 (error_body "Invalid JSON body") w
        | Ok body =>
            match called path body with
            | None => reply 404 (error_body ("Unknown route: " ++ path)) w
            | Some c =>
                match body with
                | JNull =>
                    reply 500
                      (error_body
                         (failure_message
                            (destructure_null_error (first_property c)))) w
                | _ =>
                    match perform llm c (engine_state w) with
                    | (Ok v, s) =>
                        reply 200 (JSON_stringify (wrapped c v))
                          (after w c s)
                    | (Throw e, s) =>
                        reply 500 (error_body (failure_message e))
                          (after w c s)
                    end
                end
            end
        end
    end.

(** The two response envelopes of section 3.  A success: status 200
    and, as body, the serialised result of an engine operation run in
    state [w] (wrapped as section 6 says), or the health report. *)
Definition success_shape (llm : LLM S) (uptime : number) (w : world S)
    (r : Server.response) : Prop :=
  Server.status r = 200%N
  /\ (Server.body r = health_body uptime
      \/ exists c v s,
           perform llm c (engine_state w) = (Ok v, s)
           /\ Server.body r = JSON_stringify (wrapped c v)).

(** An error: a status outside 200..299 and the body [{error: msg}]. *)
Definition error_shape (r : Server.response) : Prop :=
  (Server.status r < 200 \/ 299 < Server.status r)%N
  /\ exists msg, Server.body r = error_body msg.

(** The URL a request is for, as the listener computes it. *)
Definition path_of_request (req : Server.request) : outcome string :=
  URL_pathname (or_string (Server.req_url req) "/")
    ("http://" ++ or_string (Server.req_host req) "localhost").
End ServerSpecification.

(* ================================================================== *)
(** * Further definitions: decoding, start-up and shutdown *)
(* ================================================================== *)

(** The characters a token is made of. *)
Definition url_safe (c : ascii) : bool :=
  let n := N_of_ascii c in
  ((65 <=? n) && (n <=? 90) || (97 <=? n) && (n <=? 122)
   || (48 <=? n) && (n <=? 57) || (n =? 45) || (n =? 95))%N.

(** The place of a character in the base64url alphabet. *)
Fixpoint index_in (c : ascii) (alphabet : string) (i : N) : option N :=
  match alphabet with
  | EmptyString => None
  | String a rest => if Ascii.eqb c a then Some i else index_in c rest (i + 1)
  end.

Definition unsextet (c : ascii) : option N :=
  index_in c Auth.base64url_alphabet 0.

(** The inverse of [Auth.base64url]; it is not in [auth.ts], which only
    encodes, and serves to show that encoding loses nothing. *)
Fixpoint base64url_decode (s : string) : option (list Byte.byte) :=
  match s with
  | EmptyString => Some []
  | String c1 (String c2 EmptyString) =>
      match unsextet c1, unsextet c2 with
      | Some s1, Some s2 =>
          match Byte.of_N (s1 * 4 + s2 / 16) with
          | Some a => Some [a]
          | None => None
          end
      | _, _ => None
      end
  | String c1 (String c2 (String c3 EmptyString)) =>
      match unsextet c1, unsextet c2, unsextet c3 with
      | Some s1, Some s2, Some s3 =>
          match Byte.of_N (s1 * 4 + s2 / 16),
                Byte.of_N ((s2 mod 16) * 16 + s3 / 4) with
          | Some a, Some b => Some [a; b]
          | _, _ => None
          end
      | _, _, _ => None
      end
  | String c1 (String c2 (String c3 (String c4 rest))) =>
      match unsextet c1, unsextet c2, unsextet c3, unsextet c4 with
      | Some s1, Some s2, Some s3, Some s4 =>
          match Byte.of_N (s1 * 4 + s2 / 16),
                Byte.of_N ((s2 mod 16) * 16 + s3 / 4),
                Byte.of_N ((s3 mod 4) * 64 + s4),
                base64url_decode rest with
          | Some a, Some b, Some c, Some bytes => Some (a :: b :: c :: bytes)
          | _, _, _, _ => None
          end
      | _, _, _, _ => None
      end
  | _ => None
  end.

(** [p] holds of every number below [n]; for proofs by enumeration. *)
Fixpoint below (n : nat) (p : N -> bool) : bool :=
  match n with
  | O => true
  | S m => p (N.of_nat m) && below m p
  end.

(** The start of [startRemoteServer]: the models are warmed up before
    the listener is created. *)
Module Startup.
Section WithPlatform.
Context {JS : Platform} {S : Type}.
Variable llm : LLM S.

(** The number 1, the [maxTokens] of the warm-up generation. *)
Variable one : number.

Definition warm_embed : call := CallEmbed (Some (JStr "warmup")) None.

Definition warm_generate : call :=
  CallGenerate (Some (JStr "warmup")) (Some (JObj [("maxTokens", JNum one)])).

Definition warm_rerank : call :=
  CallRerank (Some (JStr "warmup"))
    (Some (JArr [JObj [("file", JStr "test"); ("text", JStr "warmup text")]]))
    None.

(** The pre-warming block: its [try] with the three calls, and the
    [catch] that only prints a warning. *)
Definition prewarm : M (world S) unit :=
  try_catch
    (invoke warm_embed (embed llm (Some (JStr "warmup")) None) ;;;
     invoke warm_generate
       (generate llm (Some (JStr "warmup"))
          (Some (JObj [("maxTokens", JNum one)]))) ;;;
     invoke warm_rerank
       (rerank llm (Some (JStr "warmup"))
          (Some (JArr [JObj [("file", JStr "test");
                             ("text", JStr "warmup text")]]))
          None) ;;;
     ret tt)
    (fun _ => ret tt).
End WithPlatform.
End Startup.

(* ================================================================== *)
(** * The credential store *)
(* ================================================================== *)

Section AuthProofs.
Context {JS : Platform}.

Lemma base64url_truthy (bytes : list Byte.byte) :
  bytes <> [] -> string_truthy (Auth.base64url bytes) = true.
Proof.
  destruct bytes as [|a [|b [|c rest]]]; intros Hne;
    [contradiction | reflexivity | reflexivity | reflexivity].
Qed.

Lemma readStoredToken_stored (st : Auth.fs) :
  Auth.readStoredToken st = (Ok (stored_token st), st).
Proof.
  unfold Auth.readStoredToken, try_catch, bind.
  destruct st as [|[|text|]]; simpl; try reflexivity.
  unfold lift.
  destruct (JSON_parse text) as [data|e]; [|reflexivity].
  destruct data; reflexivity.
Qed.

(** C10 (as amended).  [getAuthToken] never throws and changes nothing:
    in every state of the environment and of the file system it
    returns the environment's token when the variable holds a
    non-empty string, and otherwise (variable unset or empty) the
    token field of the persisted file when that field is truthy;
    it returns [null] when the file is missing, is not a readable
    file, does not parse, is not an object, or has no token field or
    a falsy one. *)
Theorem getAuthToken_current_token (env : option string) (st : Auth.fs) :
  Auth.getAuthToken env st = (Ok (current_token env st), st).
Proof.
  unfold Auth.getAuthToken, current_token.
  destruct env as [[|c t]|]; simpl;
    auto using readStoredToken_stored.
Qed.

Lemma revokeToken_ESModule (st : Auth.fs) :
  Auth.revokeToken Auth.ESModule st = (Ok false, st).
Proof. destruct st as [|[|text|]]; reflexivity. Qed.

(** C9, on the code as it runs.  With no environment override: when
    [generateToken] runs on 32 random bytes in a state where
    [AUTH_FILE] is not a directory, and the credential record survives
    being written and parsed, it returns its token and [getAuthToken]
    then returns that same token.  [revokeToken] does not undo this:
    in the ES module that [auth.ts] is, [require("fs")] throws inside
    the [try], the [catch] swallows the error, [revokeToken] returns
    [false] and leaves the file, and [getAuthToken] after it still
    returns the token, not [null]. *)
Theorem revoke_keeps_generated_token (random : list Byte.byte)
    (now : string) (st : Auth.fs) :
  length random = 32%nat ->
  st <> Auth.ConfigDir Auth.Directory ->
  JSON_parse (JSON_stringify_indent
                (credential (Auth.base64url random) now) 2
              ++ String "010" "")
  = Ok (credential (Auth.base64url random) now) ->
  exists st',
    Auth.generateToken random now st = (Ok (Auth.base64url random), st')
    /\ Auth.getAuthToken None st'
       = (Ok (JStr (Auth.base64url random)), st')
    /\ Auth.revokeToken Auth.ESModule st' = (Ok false, st')
    /\ (Auth.revokeToken Auth.ESModule ;;; Auth.getAuthToken None) st'
       = (Ok (JStr (Auth.base64url random)), st').
Proof.
  intros Hlen Hdir Hwire.
  assert (Htruthy : string_truthy (Auth.base64url random) = true).
  { apply base64url_truthy. intros ->. discriminate Hlen. }
  exists (Auth.ConfigDir
            (Auth.File (JSON_stringify_indent
                          (credential (Auth.base64url random) now) 2
                        ++ String "010" ""))).
  assert (Hget : Auth.getAuthToken None
                   (Auth.ConfigDir
                      (Auth.File (JSON_stringify_indent
                                    (credential (Auth.base64url random) now) 2
                                  ++ String "010" "")))
                 = (Ok (JStr (Auth.base64url random)),
                    Auth.ConfigDir
                      (Auth.File (JSON_stringify_indent
                                    (credential (Auth.base64url random) now) 2
                                  ++ String "010" "")))).
  { cbn [Auth.getAuthToken]. rewrite readStoredToken_stored. simpl.
    unfold credential in *. rewrite Hwire. simpl.
    rewrite Htruthy. reflexivity. }
  split; [|split; [exact Hget | split]].
  - unfold Auth.generateToken, bind.
    destruct st as [|[|text|]]; try reflexivity.
    contradiction Hdir; reflexivity.
  - apply revokeToken_ESModule.
  - unfold bind at 1. rewrite revokeToken_ESModule. exact Hget.
Qed.
End AuthProofs.

(** C10, the claim as stated fails.  With the variable set to the empty
    string and a token [abc] on file, the result is [abc], not the
    environment's value; and a file whose token field is the empty
    string gives [null], not that field. *)
Lemma empty_override_falls_through :
  fst (Auth.getAuthToken (JS := Node.platform) (Some "")
         (Auth.ConfigDir
            (Auth.File (Node.stringify (JObj [("token", JStr "abc")])))))
  = Ok (JStr "abc")
  /\ fst (Auth.getAuthToken (JS := Node.platform) None
            (Auth.ConfigDir
               (Auth.File (Node.stringify (JObj [("token", JStr "")])))))
     = Ok JNull.
Proof. split; vm_compute; reflexivity. Qed.

Lemma revoke_keeps_generated_token_witness :
  let token := Auth.base64url Demo.entropy in
  let now := "2026-11-01T09:30:00.000Z" in
  (length Demo.entropy = 32%nat
   /\ Auth.NoConfigDir <> Auth.ConfigDir Auth.Directory
   /\ Node.parse (Node.stringify_indent
                 (credential (JS := Node.platform) token now) 2
                  ++ String "010" "")
      = Ok (credential (JS := Node.platform) token now))
  /\ (exists st',
        Auth.generateToken (JS := Node.platform) Demo.entropy now
          Auth.NoConfigDir = (Ok token, st')
        /\ Auth.getAuthToken (JS := Node.platform) None st'
           = (Ok (JStr token), st')
        /\ Auth.revokeToken Auth.ESModule st' = (Ok false, st')
        /\ (Auth.revokeToken Auth.ESModule ;;;
            Auth.getAuthToken (JS := Node.platform) None) st'
           = (Ok (JStr token), st')).
Proof.
  intros token now.
  assert (Hlen : length Demo.entropy = 32%nat) by reflexivity.
  assert (Hdir : Auth.NoConfigDir <> Auth.ConfigDir Auth.Directory)
    by discriminate.
  assert (Hwire : Node.parse (Node.stringify_indent
                 (credential (JS := Node.platform) token now) 2
                              ++ String "010" "")
                  = Ok (credential (JS := Node.platform) token now))
    by (vm_compute; reflexivity).
  split; [auto |].
  exact (revoke_keeps_generated_token (JS := Node.platform) Demo.entropy now
           Auth.NoConfigDir Hlen Hdir Hwire).
Defined.

(* ================================================================== *)
(** * The inference server *)
(* ================================================================== *)

Section ServerRefinement.
Context {JS : Platform} {S : Type}.
Variable llm : LLM S.

(** What the switch does, route by route. *)
Lemma route_called (path : string) (body : value) (w : world S) :
  Server.route llm path body w =
  match called path body with
  | None =>
      (Ok (Server.Response 404 (error_body ("Unknown route: " ++ path))), w)
  | Some c =>
      match body with
      | JNull => (Throw (destructure_null_error (first_property c)), w)
      | _ =>
          match perform llm c (engine_state w) with
          | (Ok v, s) =>
              (Ok (Server.Response 200 (JSON_stringify (wrapped c v))),
               after w c s)
          | (Throw e, s) => (Throw e, after w c s)
          end
      end
  end.
Proof.
  unfold Server.route, called.
  repeat match goal with
         | |- context [if ?p =? ?q then _ else _] => destruct (p =? q)
         end;
    try reflexivity;
    unfold perform, bind, destructure, invoke, Server.sendJSON, after, ret,
      throw;
    destruct body; try reflexivity; cbn [first_property wrapped];
    match goal with
    | |- context [?m (engine_state w)] =>
        destruct (m (engine_state w)) as [[? | ?] ?]
    end; reflexivity.
Qed.

Lemma or_string_message (e : js_error) :
  or_string (Some (message e)) "Internal server error" = failure_message e.
Proof. unfold failure_message. destruct (message e); reflexivity. Qed.

Lemma rejected_authenticated (token : string) (req : Server.request) :
  string_truthy token = true ->
  Server.rejected token req = negb (authenticated (Some token) req).
Proof.
  unfold Server.rejected, authenticated.
  destruct token; [discriminate|]. intros _.
  destruct (Server.req_authorization req); simpl; [|reflexivity].
  reflexivity.
Qed.

(** The listener, step by step: a request whose URL does not parse
    makes it throw; an unauthenticated one gets 401; any other the
    response of [respond]. *)
Lemma handler_respond (authToken : option string) (uptime : number)
    (req : Server.request) (w : world S) :
  Server.handler llm authToken uptime req w =
  match path_of_request req with
  | Throw e => (Throw e, w)
  | Ok path =>
      if authenticated authToken req
      then respond llm uptime req path w
      else reply 401 (error_body "Unauthorized") w
  end.
Proof.
  unfold Server.handler, path_of_request, bind at 1, lift at 1.
  destruct (URL_pathname _ _) as [path|e]; [|reflexivity].
  assert (Hauth :
    match authToken with
    | Some token => string_truthy token && Server.rejected token req
    | None => false
    end = negb (authenticated authToken req)).
  { destruct authToken as [[|c t]|]; try reflexivity.
    rewrite rejected_authenticated by reflexivity. reflexivity. }
  rewrite Hauth. clear Hauth.
  destruct (authenticated authToken req); simpl; [|reflexivity].
  unfold respond, method_is, reply.
  destruct req as [url host method auth rbody];
    cbn [Server.req_method Server.req_body option_map].
  assert (Hpost : forall is_post : bool,
    (if negb is_post
     then Server.sendError 405 "Method not allowed"
     else
       parsed <- try_catch
                   (raw <- Server.readBody
                             (Server.Request url host method auth rbody) ;;
                    body <- lift (JSON_parse raw) ;;
                    ret (Some body))
                   (fun _ => ret None) ;;
       match parsed with
       | None => Server.sendError 400 "Invalid JSON body"
       | Some body =>
           try_catch (Server.route llm path body)
             (fun err =>
                Server.sendError 500
                  (or_string (Some (message err)) "Internal server error"))
       end) w
    = (if negb is_post
       then (Ok (Server.Response 405 (error_body "Method not allowed")), w)
       else
         match rbody with
         | Throw _ =>
             (Ok (Server.Response 400 (error_body "Invalid JSON body")), w)
         | Ok raw =>
             match JSON_parse raw with
             | Throw _ =>
                 (Ok (Server.Response 400 (error_body "Invalid JSON body")),
                  w)
             | Ok body =>
                 match called path body with
                 | None =>
                     (Ok (Server.Response 404
                            (error_body ("Unknown route: " ++ path))), w)
                 | Some c =>
                     match body with
                     | JNull =>
                         (Ok (Server.Response 500
                                (error_body
                                   (failure_message
                                      (destructure_null_error
                                         (first_property c))))), w)
                     | _ =>
                         match perform llm c (engine_state w) with
                         | (Ok v, s) =>
                             (Ok (Server.Response 200
                                    (JSON_stringify (wrapped c v))),
                              after w c s)
                         | (Throw e, s) =>
                             (Ok (Server.Response 500
                                    (error_body (failure_message e))),
                              after w c s)
                         end
                     end
                 end
             end
         end)).
  { intros [|]; [|reflexivity]. cbn [negb].
    unfold try_catch at 1, bind at 1, Server.readBody, lift.
    cbn [Server.req_body].
    destruct rbody as [raw|e]; [|reflexivity].
    unfold try_catch at 1, bind at 1 2.
    destruct (JSON_parse raw) as [body|e]; [|reflexivity].
    cbn [ret]. unfold try_catch. rewrite route_called.
    destruct (called path body) as [c|]; [|reflexivity].
    destruct body; try (rewrite <- or_string_message; reflexivity);
      destruct (perform llm c (engine_state w)) as [[? | ?] ?];
      try reflexivity; rewrite <- or_string_message; reflexivity. }
  destruct method as [m|]; cbn [option_map].
  - destruct ((path =? "/health") && (toUpperCase m =? "GET"));
      [reflexivity|].
    destruct ((path =? "/device") && (toUpperCase m =? "GET")).
    + unfold try_catch, bind, invoke, perform, Server.sendJSON,
        Server.sendError, ret, after.
      destruct (getDeviceInfo llm (engine_state w)) as [[v|e] s];
        reflexivity.
    + apply Hpost.
  - rewrite !andb_false_r. apply (Hpost false).
Qed.
End ServerRefinement.

(** ** Authentication *)

Lemma match_ci_Bearer (pfx rest : string) :
  toUpperCase pfx = "BEARER" -> match_ci "Bearer" (pfx ++ rest) = Some rest.
Proof.
  destruct pfx as [|c1 [|c2 [|c3 [|c4 [|c5 [|c6 [|c7 r]]]]]]];
    cbn [toUpperCase]; intros Hup; try discriminate Hup.
  injection Hup as H1 H2 H3 H4 H5 H6.
  cbn [append match_ci]. unfold ci_eqb.
  rewrite H1, H2, H3, H4, H5, H6. reflexivity.
Qed.

Lemma drop_spaces_app (ws t : string) :
  all_chars is_js_space ws = true -> starts_with_space t = false ->
  drop_spaces (ws ++ t) = t.
Proof.
  intros Hws Ht. induction ws as [|c ws IH]; cbn [append].
  - destruct t as [|c t]; [reflexivity|].
    cbn in Ht |- *. rewrite Ht. reflexivity.
  - cbn in Hws. apply andb_true_iff in Hws as [Hc Hws].
    cbn. rewrite Hc. auto.
Qed.

Lemma strip_bearer_Bearer (pfx ws t : string) :
  toUpperCase pfx = "BEARER" -> ws <> "" ->
  all_chars is_js_space ws = true -> starts_with_space t = false ->
  strip_bearer (pfx ++ ws ++ t) = t.
Proof.
  intros Hpfx Hne Hws Ht. unfold strip_bearer.
  rewrite match_ci_Bearer by assumption.
  destruct ws as [|c ws]; [contradiction|].
  cbn in Hws. apply andb_true_iff in Hws as [Hc Hws].
  cbn [append]. rewrite Hc. apply drop_spaces_app; assumption.
Qed.

Lemma strip_bearer_plain (h : string) :
  has_bearer_prefix h = false -> strip_bearer h = h.
Proof.
  unfold has_bearer_prefix, strip_bearer, starts_with_space.
  destruct (match_ci "Bearer" h) as [[|c r]|]; try reflexivity.
  intros ->. reflexivity.
Qed.

Section Authentication.
Context {JS : Platform} {S : Type}.
Variable llm : LLM S.

Lemma respond_total (uptime : number) (req : Server.request)
    (path : string) (w : world S) :
  exists r w', respond llm uptime req path w = (Ok r, w').
Proof.
  unfold respond, reply.
  repeat match goal with
         | |- context [if ?b then _ else _] => destruct b
         | |- context [match ?x with _ => _ end] => destruct x
         end; eauto.
Qed.

Lemma respond_status (uptime : number) (req : Server.request)
    (path : string) (w w' : world S) (r : Server.response) :
  respond llm uptime req path w = (Ok r, w') ->
  In (Server.status r) [200; 400; 404; 405; 500]%N.
Proof.
  unfold respond, reply.
  repeat match goal with
         | |- context [if ?b then _ else _] => destruct b
         | |- context [match ?x with _ => _ end] => destruct x
         end;
    intros Heq; injection Heq as <- _; cbn; auto 6.
Qed.

(** C2 (as amended).  On a server with a non-empty token [token], for
    a request of any path and method, the Authorization header is
    compared with [token] after the word Bearer (in any letter case)
    and the whitespace that follows it are removed, when they are
    there.  So: (1) a header made of Bearer, whitespace and [token]
    passes authentication when [token] does not itself begin with
    whitespace, and the request goes on to routing; (2) so does a
    header that is just [token], without the prefix; (3) a request
    without an Authorization header, (4) one whose header carries
    another token after the Bearer prefix, and (5) one whose header
    lacks the prefix and differs from [token], each get 401 with the
    Unauthorized error body, nothing else being done. *)
Theorem bearer_authentication (token : string) (uptime : number)
    (req : Server.request) (w : world S) (path : string) :
  string_truthy token = true ->
  path_of_request req = Ok path ->
  (forall pfx ws,
      toUpperCase pfx = "BEARER" -> ws <> "" ->
      all_chars is_js_space ws = true ->
      starts_with_space token = false ->
      Server.req_authorization req = Some (pfx ++ ws ++ token) ->
      Server.handler llm (Some token) uptime req w
      = respond llm uptime req path w)
  /\ (has_bearer_prefix token = false ->
      Server.req_authorization req = Some token ->
      Server.handler llm (Some token) uptime req w
      = respond llm uptime req path w)
  /\ (Server.req_authorization req = None ->
      Server.handler llm (Some token) uptime req w
      = reply 401 (error_body "Unauthorized") w)
  /\ (forall pfx ws other,
        toUpperCase pfx = "BEARER" -> ws <> "" ->
        all_chars is_js_space ws = true ->
        starts_with_space other = false ->
        other <> token ->
        Server.req_authorization req = Some (pfx ++ ws ++ other) ->
        Server.handler llm (Some token) uptime req w
        = reply 401 (error_body "Unauthorized") w)
  /\ (forall h,
        has_bearer_prefix h = false -> h <> token ->
        Server.req_authorization req = Some h ->
        Server.handler llm (Some token) uptime req w
        = reply 401 (error_body "Unauthorized") w).
Proof.
  intros Htok Hpath.
  assert (Hstep : forall h : option string,
    Server.req_authorization req = h ->
    Server.handler llm (Some token) uptime req w =
    if match h with Some v => strip_bearer v =? token | None => false end
    then respond llm uptime req path w
    else reply 401 (error_body "Unauthorized") w).
  { intros h Hh. rewrite handler_respond, Hpath. unfold authenticated.
    destruct token; [discriminate|]. rewrite Hh. reflexivity. }
  repeat split.
  - intros pfx ws Hpfx Hne Hws Hstart Hh.
    rewrite (Hstep _ Hh), strip_bearer_Bearer by assumption.
    rewrite String.eqb_refl. reflexivity.
  - intros Hplain Hh.
    rewrite (Hstep _ Hh), strip_bearer_plain by assumption.
    rewrite String.eqb_refl. reflexivity.
  - intros Hh. rewrite (Hstep _ Hh). reflexivity.
  - intros pfx ws other Hpfx Hne Hws Hstart Hdiff Hh.
    rewrite (Hstep _ Hh), strip_bearer_Bearer by assumption.
    apply String.eqb_neq in Hdiff. rewrite Hdiff. reflexivity.
  - intros h Hplain Hdiff Hh.
    rewrite (Hstep _ Hh), strip_bearer_plain by assumption.
    apply String.eqb_neq in Hdiff. rewrite Hdiff. reflexivity.
Qed.

(** C3.  On a server without a token (none, or the empty string), no
    request is answered 401: every request whose URL parses goes to
    routing, and the outcome does not depend on the presence or the
    content of the Authorization header. *)
Theorem no_token_no_401 (authToken : option string) (uptime : number)
    (req : Server.request) (w : world S) :
  authToken = None \/ authToken = Some "" ->
  (forall r w',
      Server.handler llm authToken uptime req w = (Ok r, w') ->
      Server.status r <> 401%N)
  /\ (forall path,
         path_of_request req = Ok path ->
         Server.handler llm authToken uptime req w
         = respond llm uptime req path w)
  /\ (forall header,
         Server.handler llm authToken uptime
           (Server.Request (Server.req_url req) (Server.req_host req)
              (Server.req_method req) header (Server.req_body req)) w
         = Server.handler llm authToken uptime req w).
Proof.
  intros Hnone.
  assert (Hauth : forall r, authenticated authToken r = true)
    by (destruct Hnone as [-> | ->]; reflexivity).
  repeat split.
  - intros r w'. rewrite handler_respond, Hauth.
    destruct (path_of_request req) as [path|e]; [|discriminate].
    intros Hr. apply respond_status in Hr. cbn in Hr.
    intros H401. rewrite H401 in Hr.
    repeat destruct Hr as [Hr|Hr]; try discriminate Hr. exact Hr.
  - intros path Hpath. rewrite handler_respond, Hauth, Hpath. reflexivity.
  - intros header. rewrite !handler_respond, !Hauth.
    destruct req as [url host method auth rbody]. reflexivity.
Qed.
End Authentication.

(** C2, the claim as stated fails on both sides.  With token [abc], a
    header that is just [abc], without any Bearer prefix, is accepted:
    GET /health is answered 200.  With token [ x], which begins with a
    space, the header [Bearer ] followed by that token is rejected. *)
Lemma bearer_prefix_not_required :
  Server.handler (JS := Node.platform) Demo.engine (Some "abc") 7%Z
    (Demo.GET "/health" (Some "abc")) Demo.start
  = reply 200 (health_body (JS := Node.platform) 7%Z) Demo.start
  /\ Server.handler (JS := Node.platform) Demo.engine (Some " x") 7%Z
       (Demo.GET "/health" (Some ("Bearer " ++ " x"))) Demo.start
     = reply 401 (error_body (JS := Node.platform) "Unauthorized") Demo.start.
Proof. split; reflexivity. Qed.

Lemma bearer_authentication_witness :
  let req := Demo.GET "/health" (Some ("bEaReR" ++ "  " ++ "s3cret")) in
  string_truthy "s3cret" = true
  /\ path_of_request (JS := Node.platform) req = Ok "/health"
  /\ Server.handler (JS := Node.platform) Demo.engine (Some "s3cret") 7%Z
       req Demo.start
     = respond Demo.engine 7%Z req "/health" Demo.start.
Proof.
  intros req.
  assert (Htok : string_truthy "s3cret" = true) by reflexivity.
  assert (Hpath : path_of_request (JS := Node.platform) req = Ok "/health")
    by reflexivity.
  split; [exact Htok | split; [exact Hpath|]].
  destruct (bearer_authentication (JS := Node.platform) Demo.engine "s3cret"
              7%Z req Demo.start "/health" Htok Hpath) as [Hpass _].
  apply (Hpass "bEaReR" "  "); try reflexivity. discriminate.
Defined.

Lemma no_token_no_401_witness :
  let req := Demo.GET "/device" (Some "Bearer whatever") in
  (@None string = None \/ @None string = Some "")
  /\ (forall r w',
         Server.handler (JS := Node.platform) Demo.engine None 7%Z req
           Demo.start = (Ok r, w') ->
         Server.status r <> 401%N)
  /\ Server.handler (JS := Node.platform) Demo.engine None 7%Z req Demo.start
     = respond Demo.engine 7%Z req "/device" Demo.start.
Proof.
  intros req.
  assert (Hnone : @None string = None \/ @None string = Some "")
    by (left; reflexivity).
  destruct (no_token_no_401 (JS := Node.platform) Demo.engine None 7%Z req
              Demo.start Hnone) as (Hstatus & Hroute & _).
  split; [exact Hnone | split; [exact Hstatus|]].
  apply Hroute. reflexivity.
Defined.

(** ** Routing *)

Section Routing.
Context {JS : Platform} {S : Type}.
Variable llm : LLM S.

Lemma method_POST_not_GET (req : Server.request) :
  method_is req "POST" = true -> method_is req "GET" = false.
Proof.
  unfold method_is. destruct (Server.req_method req) as [m|]; [|discriminate].
  intros Hpost. apply String.eqb_eq in Hpost. rewrite Hpost. reflexivity.
Qed.

Lemma called_unknown (path : string) (body : value) :
  ~ In path inference_paths -> called path body = None.
Proof.
  intros Hnot. unfold called.
  repeat match goal with
         | |- context [if ?p =? ?q then _ else _] =>
             destruct (String.eqb_spec p q) as [Heq|_];
             [exfalso; apply Hnot; rewrite Heq; cbn; tauto|]
         end.
  reflexivity.
Qed.

Lemma respond_POST (uptime : number) (req : Server.request)
    (path : string) (w : world S) :
  method_is req "POST" = true ->
  respond llm uptime req path w =
  match Server.req_body req with
  | Throw _ => reply 400 (error_body "Invalid JSON body") w
  | Ok raw =>
      match JSON_parse raw with
      | Throw _ => reply 400 (error_body "Invalid JSON body") w
      | Ok body =>
          match called path body with
          | None => reply 404 (error_body ("Unknown route: " ++ path)) w
          | Some c =>
              match body with
              | JNull =>
                  reply 500
                    (error_body
                       (failure_message
                          (destructure_null_error (first_property c)))) w
              | _ =>
                  match perform llm c (engine_state w) with
                  | (Ok v, s) =>
                      reply 200 (JSON_stringify (wrapped c v)) (after w c s)
                  | (Throw e, s) =>
                      reply 500 (error_body (failure_message e))
                        (after w c s)
                  end
              end
          end
      end
  end.
Proof.
  intros Hpost. unfold respond.
  rewrite (method_POST_not_GET _ Hpost), Hpost, !andb_false_r.
  reflexivity.
Qed.

(** C4 (as amended).  For an authenticated request with path [path]:
    when the method is not POST, and the request is neither GET
    /health nor GET /device, the response is 405, whatever the path,
    known or unknown; when the method is POST, the body parses as
    JSON and [path] is none of the inference routes, the response is
    404 with the error [Unknown route: path]. *)
Theorem method_and_route_errors (authToken : option string)
    (uptime : number) (req : Server.request) (w : world S)
    (path : string) :
  path_of_request req = Ok path ->
  authenticated authToken req = true ->
  (method_is req "POST" = false ->
   (path =? "/health") && method_is req "GET" = false ->
   (path =? "/device") && method_is req "GET" = false ->
   Server.handler llm authToken uptime req w
   = reply 405 (error_body "Method not allowed") w)
  /\ (forall raw body,
         method_is req "POST" = true ->
         Server.req_body req = Ok raw ->
         JSON_parse raw = Ok body ->
         ~ In path inference_paths ->
         Server.handler llm authToken uptime req w
         = reply 404 (error_body ("Unknown route: " ++ path)) w).
Proof.
  intros Hpath Hauth. rewrite handler_respond, Hpath, Hauth. split.
  - intros Hpost Hhealth Hdevice. unfold respond.
    rewrite Hhealth, Hdevice, Hpost. reflexivity.
  - intros raw body Hpost Hraw Hparse Hunknown.
    rewrite respond_POST, Hraw, Hparse, called_unknown by assumption.
    reflexivity.
Qed.

(** C5.  For an authenticated POST request whose body cannot be read
    or does not parse as JSON, on any path, the response is 400 with
    the error [Invalid JSON body], and the engine is not invoked: no
    call is recorded and its state is unchanged. *)
Theorem invalid_json_body (authToken : option string) (uptime : number)
    (req : Server.request) (w : world S) (path : string) :
  path_of_request req = Ok path ->
  authenticated authToken req = true ->
  method_is req "POST" = true ->
  (forall raw, Server.req_body req = Ok raw ->
               exists e, JSON_parse raw = Throw e) ->
  Server.handler llm authToken uptime req w
  = reply 400 (error_body "Invalid JSON body") w
  /\ engine_calls (snd (Server.handler llm authToken uptime req w))
     = engine_calls w
  /\ engine_state (snd (Server.handler llm authToken uptime req w))
     = engine_state w.
Proof.
  intros Hpath Hauth Hpost Hbad.
  assert (Heq : Server.handler llm authToken uptime req w
                = reply 400 (error_body "Invalid JSON body") w).
  { rewrite handler_respond, Hpath, Hauth, respond_POST by assumption.
    destruct (Server.req_body req) as [raw|e]; [|reflexivity].
    destruct (Hbad raw eq_refl) as [e He]. rewrite He. reflexivity. }
  rewrite Heq. auto.
Qed.

(** C6 (as amended).  For an authenticated POST request to an
    inference route whose body parses as JSON: when the engine
    operation the route invokes throws [e] (the body is then not
    [null], for which the route fails before it calls the engine), the
    response is 500 with the error envelope of [e]'s message, or of
    [Internal server error] when that message is empty; the listener
    keeps listening and serves the later requests from the state the
    failed call left. *)
Theorem engine_failure_is_500 (authToken : option string)
    (uptime : number) (req : Server.request) (w : world S)
    (path raw : string) (body : value) (c : call) (e : js_error) (s : S) :
  path_of_request req = Ok path ->
  authenticated authToken req = true ->
  method_is req "POST" = true ->
  Server.req_body req = Ok raw ->
  JSON_parse raw = Ok body ->
  body <> JNull ->
  called path body = Some c ->
  perform llm c (engine_state w) = (Throw e, s) ->
  let message_sent :=
    match message e with
    | "" => "Internal server error"
    | msg => msg
    end in
  Server.handler llm authToken uptime req w
  = reply 500 (error_body message_sent) (after w c s)
  /\ forall later,
      Server.serve llm authToken (Server.Process true w)
        ((uptime, req) :: later)
      = (Some (Server.Response 500 (error_body message_sent))
           :: fst (Server.serve llm authToken
                     (Server.Process true (after w c s)) later),
         snd (Server.serve llm authToken
                (Server.Process true (after w c s)) later)).
Proof.
  intros Hpath Hauth Hpost Hraw Hparse Hnull Hcalled Hthrow message_sent.
  assert (Heq : Server.handler llm authToken uptime req w
                = reply 500 (error_body message_sent) (after w c s)).
  { rewrite handler_respond, Hpath, Hauth, respond_POST by assumption.
    rewrite Hraw, Hparse, Hcalled, Hthrow.
    destruct body; try reflexivity. contradiction. }
  split; [exact Heq|].
  intros later. cbn [Server.serve]. unfold Server.accept.
  cbn [Server.listening Server.state fst snd]. rewrite Heq. unfold reply.
  destruct (Server.serve llm authToken
              (Server.Process true (after w c s)) later).
  reflexivity.
Qed.
End Routing.

(** C4, the claim as stated fails: an unknown path does not get 404
    regardless of the method.  GET /nonexistent is answered 405. *)
Lemma unknown_route_wrong_method :
  Server.handler (JS := Node.platform) Demo.engine None 7%Z
    (Demo.GET "/nonexistent" None) Demo.start
  = reply 405 (error_body (JS := Node.platform) "Method not allowed")
      Demo.start.
Proof. reflexivity. Qed.

Lemma method_and_route_errors_witness :
  let get := Demo.GET "/embed" None in
  let post := Demo.POST "/nonexistent" None "{}" in
  (path_of_request (JS := Node.platform) get = Ok "/embed"
   /\ authenticated None get = true
   /\ method_is get "POST" = false)
  /\ (path_of_request (JS := Node.platform) post = Ok "/nonexistent"
      /\ authenticated None post = true
      /\ method_is post "POST" = true
      /\ Node.parse "{}" = Ok (JObj [])
      /\ ~ In "/nonexistent" inference_paths)
  /\ Server.handler (JS := Node.platform) Demo.engine None 7%Z get
       Demo.start
     = reply 405 ("{" ++ Node.quoted "error" ++ ":"
                  ++ Node.quoted "Method not allowed" ++ "}") Demo.start
  /\ Server.handler (JS := Node.platform) Demo.engine None 7%Z post
       Demo.start
     = reply 404 ("{" ++ Node.quoted "error" ++ ":"
                  ++ Node.quoted "Unknown route: /nonexistent" ++ "}")
         Demo.start.
Proof.
  intros get post.
  assert (Hunknown : ~ In "/nonexistent" inference_paths).
  { cbn. intros H. repeat destruct H as [H|H]; try discriminate H. exact H. }
  destruct (method_and_route_errors (JS := Node.platform) Demo.engine None
              7%Z get Demo.start "/embed" eq_refl eq_refl) as [H405 _].
  destruct (method_and_route_errors (JS := Node.platform) Demo.engine None
              7%Z post Demo.start "/nonexistent" eq_refl eq_refl)
    as [_ H404].
  split; [repeat split|].
  split; [repeat split; exact Hunknown|].
  split.
  - exact (H405 eq_refl eq_refl eq_refl).
  - exact (H404 "{}" (JObj []) eq_refl eq_refl eq_refl Hunknown).
Defined.

Lemma invalid_json_body_witness :
  let req := Demo.POST "/embed" (Some "Bearer s3cret") "{bad json" in
  (path_of_request (JS := Node.platform) req = Ok "/embed"
   /\ authenticated (Some "s3cret") req = true
   /\ method_is req "POST" = true
   /\ Node.parse "{bad json" = Throw Node.SyntaxError)
  /\ Server.handler (JS := Node.platform) Demo.engine (Some "s3cret") 7%Z
       req Demo.start
     = reply 400 ("{" ++ Node.quoted "error" ++ ":"
                  ++ Node.quoted "Invalid JSON body" ++ "}") Demo.start.
Proof.
  intros req.
  assert (Hbad : forall raw, Server.req_body req = Ok raw ->
                             exists e, Node.parse raw = Throw e).
  { intros raw [= <-]. exists Node.SyntaxError. reflexivity. }
  destruct (invalid_json_body (JS := Node.platform) Demo.engine
              (Some "s3cret") 7%Z req Demo.start "/embed"
              eq_refl eq_refl eq_refl Hbad) as [H400 _].
  split; [repeat split | exact H400].
Defined.

(** C6, the claim as stated fails: when the engine throws an error
    whose message is empty, the body does not carry that message but
    the text [Internal server error]. *)
Lemma empty_engine_message :
  let req :=
    Demo.POST "/count-tokens" None
      (Node.stringify (JObj [("text", JStr "hi")])) in
  fst (Server.handler (JS := Node.platform) (Demo.broken "") None 7%Z req
         Demo.start)
  = Ok (Server.Response 500
          (error_body (JS := Node.platform) "Internal server error"))
  /\ error_body (JS := Node.platform) "Internal server error"
     <> error_body (JS := Node.platform) (message (Error "")).
Proof. split; [reflexivity | vm_compute; discriminate]. Qed.

Lemma engine_failure_is_500_witness :
  let req :=
    Demo.POST "/rerank" (Some "Bearer s3cret")
      (Node.stringify (JObj [("query", JStr "q"); ("documents", JArr [])])) in
  let body : value (JS := Node.platform) :=
    JObj [("query", JStr "q"); ("documents", JArr [])] in
  let c := CallRerank (Some (JStr "q")) (Some (JArr [])) None in
  let later := [(8%Z, Demo.GET "/health" (Some "Bearer s3cret"))] in
  (path_of_request (JS := Node.platform) req = Ok "/rerank"
   /\ authenticated (Some "s3cret") req = true
   /\ method_is req "POST" = true
   /\ Node.parse (Node.stringify body) = Ok body
   /\ body <> JNull
   /\ called "/rerank" body = Some c
   /\ perform (Demo.broken "model not loaded") c 0%nat
      = (Throw (Error "model not loaded"), 0%nat))
  /\ Server.handler (JS := Node.platform) (Demo.broken "model not loaded")
       (Some "s3cret") 7%Z req Demo.start
     = reply 500 ("{" ++ Node.quoted "error" ++ ":"
                  ++ Node.quoted "model not loaded" ++ "}")
         (after Demo.start c 0%nat)
  /\ fst (Server.serve (JS := Node.platform)
            (Demo.broken "model not loaded") (Some "s3cret")
            (Server.Process true Demo.start) ((7%Z, req) :: later))
     = [Some (Server.Response 500
                (error_body (JS := Node.platform) "model not loaded"));
        Some (Server.Response 200 (health_body (JS := Node.platform) 8%Z))].
Proof.
  intros req body c later.
  assert (Hnull : body <> JNull) by discriminate.
  destruct (engine_failure_is_500 (JS := Node.platform)
              (Demo.broken "model not loaded") (Some "s3cret") 7%Z req
              Demo.start "/rerank" (Node.stringify body) body c
              (Error "model not loaded") 0%nat
              eq_refl eq_refl eq_refl eq_refl eq_refl Hnull eq_refl eq_refl)
    as [Hresp Hserve].
  split; [repeat split; exact Hnull|].
  split; [exact Hresp|].
  etransitivity; [exact (f_equal fst (Hserve later)) | reflexivity].
Defined.

Section Envelopes.
Context {JS : Platform} {S : Type}.
Variable llm : LLM S.

Lemma respond_shape (uptime : number) (req : Server.request)
    (path : string) (w w' : world S) (r : Server.response) :
  respond llm uptime req path w = (Ok r, w') ->
  success_shape llm uptime w r \/ error_shape r.
Proof.
  assert (Herr : forall status msg,
             (status < 200 \/ 299 < status)%N ->
             error_shape (Server.Response status (error_body msg)))
    by (intros status msg Hs; split; [exact Hs | exists msg; reflexivity]).
  assert (Hok : forall c v s,
             perform llm c (engine_state w) = (Ok v, s) ->
             success_shape llm uptime w
               (Server.Response 200 (JSON_stringify (wrapped c v))))
    by (intros c v s Hc; split; [reflexivity | right; eauto]).
  unfold respond, reply.
  destruct ((path =? "/health") && method_is req "GET").
  { intros [= <- _]. left. split; [reflexivity | left; reflexivity]. }
  destruct ((path =? "/device") && method_is req "GET").
  { destruct (perform llm CallGetDeviceInfo (engine_state w))
      as [[info|e] s] eqn:Hcall; intros [= <- _].
    - left. apply (Hok CallGetDeviceInfo info s Hcall).
    - right. apply Herr. lia. }
  destruct (negb (method_is req "POST")).
  { intros [= <- _]. right. apply Herr. lia. }
  destruct (Server.req_body req) as [raw|e];
    [|intros [= <- _]; right; apply Herr; lia].
  destruct (JSON_parse raw) as [body|e];
    [|intros [= <- _]; right; apply Herr; lia].
  destruct (called path body) as [c|];
    [|intros [= <- _]; right; apply Herr; lia].
  destruct body;
    try (intros [= <- _]; right; apply Herr; lia);
    destruct (perform llm c (engine_state w)) as [[v|e] s'] eqn:Hcall;
    intros [= <- _];
    try (left; apply (Hok c v s' Hcall));
    right; apply Herr; lia.
Qed.

(** C7.  Every response the listener sends is of exactly one of two
    shapes: status 200 with the serialised result of an operation
    (or the health report) as body, or a status outside 200..299
    with a body [{error: msg}]; never both. *)
Theorem response_envelopes (authToken : option string) (uptime : number)
    (req : Server.request) (w w' : world S) (r : Server.response) :
  Server.handler llm authToken uptime req w = (Ok r, w') ->
  (success_shape llm uptime w r \/ error_shape r)
  /\ ~ (success_shape llm uptime w r /\ error_shape r).
Proof.
  intros Hr. split.
  - rewrite handler_respond in Hr.
    destruct (path_of_request req) as [path|e]; [|discriminate].
    destruct (authenticated authToken req).
    + apply (respond_shape _ _ _ _ _ _ Hr).
    + injection Hr as <- _. right.
      split; [right; cbn; lia | exists "Unauthorized"; reflexivity].
  - intros [[H200 _] [Hnot _]]. rewrite H200 in Hnot. lia.
Qed.
End Envelopes.

Lemma response_envelopes_witness :
  let req :=
    Demo.POST "/tokenize" None (Node.stringify (JObj [("text", JStr "hi")])) in
  let r :=
    Server.Response 200
      ("{" ++ Node.quoted "tokens" ++ ":[104,105]}") in
  let w' := after Demo.start (CallTokenize (Some (JStr "hi"))) 1%nat in
  Server.handler (JS := Node.platform) Demo.engine None 7%Z req Demo.start
  = (Ok r, w')
  /\ (success_shape (JS := Node.platform) Demo.engine 7%Z Demo.start r
      \/ error_shape (JS := Node.platform) r)
  /\ ~ (success_shape (JS := Node.platform) Demo.engine 7%Z Demo.start r
        /\ error_shape (JS := Node.platform) r).
Proof.
  intros req r w'.
  assert (Hrun : Server.handler (JS := Node.platform) Demo.engine None 7%Z
                   req Demo.start = (Ok r, w')) by reflexivity.
  split; [exact Hrun|].
  exact (response_envelopes (JS := Node.platform) Demo.engine None 7%Z req
           Demo.start w' r Hrun).
Defined.


(* ================================================================== *)
(** * The proxy client *)
(* ================================================================== *)

Section ProxyFailures.
Context {JS : Platform} {W : Type}.
Variable fetch : string -> Client.fetch_init -> M W Client.fetch_response.

(** C8.  When the response to a proxy call has a status outside
    200..299, the call throws an error whose message names the request
    path, the status code and the text of the response body, the empty
    string standing for a body that cannot be read; it never returns a
    result.  This holds of [post], of [get], and so of every operation
    of the proxy. *)
Theorem non_success_status_fails (self : Client.RemoteLLM)
    (resp : Client.fetch_response) (w w' : W) :
  Client.resp_ok resp = false ->
  let text := match Client.resp_text resp with Ok t => t | Throw _ => "" end in
  let failed (path : string) :=
    Error ("QMD remote " ++ path ++ " failed ("
           ++ decimal (Client.resp_status resp) ++ "): " ++ text) in
  (forall path body,
      fetch (Client.baseUrl self ++ path)
        (Client.FetchInit "POST" (Some "application/json")
           (Client.bearer self) (Some (JSON_stringify body))) w
      = (Ok resp, w') ->
      Client.post fetch self path body w = (Throw (failed path), w'))
  /\ (forall path,
         fetch (Client.baseUrl self ++ path)
           (Client.FetchInit "GET" None (Client.bearer self) None) w
         = (Ok resp, w') ->
         Client.get fetch self path w = (Throw (failed path), w'))
  /\ (forall op,
         (forall url init, fetch url init w = (Ok resp, w')) ->
         remote fetch self op w = (Throw (failed (path_of op)), w')).
Proof.
  intros Hbad text failed.
  assert (Hpost : forall path body,
    fetch (Client.baseUrl self ++ path)
      (Client.FetchInit "POST" (Some "application/json")
         (Client.bearer self) (Some (JSON_stringify body))) w
    = (Ok resp, w') ->
    Client.post fetch self path body w = (Throw (failed path), w')).
  { intros path body Hfetch. unfold Client.post, bind.
    rewrite Hfetch, Hbad. reflexivity. }
  assert (Hget : forall path,
    fetch (Client.baseUrl self ++ path)
      (Client.FetchInit "GET" None (Client.bearer self) None) w
    = (Ok resp, w') ->
    Client.get fetch self path w = (Throw (failed path), w')).
  { intros path Hfetch. unfold Client.get, bind.
    rewrite Hfetch, Hbad. reflexivity. }
  split; [exact Hpost | split; [exact Hget|]].
  intros op Hall.
  destruct op; cbn [remote path_of];
    unfold Client.embed, Client.embedBatch, Client.generate,
      Client.expandQuery, Client.rerank, Client.tokenize,
      Client.countTokens, Client.detokenize, Client.modelExists,
      Client.getDeviceInfo;
    unfold bind at 1;
    first [rewrite Hpost by apply Hall | rewrite Hget by apply Hall];
    reflexivity.
Qed.
End ProxyFailures.

Lemma non_success_status_fails_witness :
  let self := Client.new_RemoteLLM
                {| Client.url := "http://gpu:8282/";
                   Client.cfg_authToken := None;
                   Client.cfg_timeoutMs := None |} in
  let resp := Client.FetchResponse 503 (Ok "overloaded") in
  let fetch := fun (_ : string) (_ : Client.fetch_init) =>
                 ret (W := unit) resp in
  Client.resp_ok resp = false
  /\ (forall url init, fetch url init tt = (Ok resp, tt))
  /\ remote (JS := Node.platform) fetch self (Embed "hi" None) tt
     = (Throw (Error "QMD remote /embed failed (503): overloaded"), tt).
Proof.
  intros self resp fetch.
  assert (Hbad : Client.resp_ok resp = false) by reflexivity.
  assert (Hall : forall url init, fetch url init tt = (Ok resp, tt))
    by reflexivity.
  destruct (non_success_status_fails (JS := Node.platform) fetch self resp
              tt tt Hbad) as (_ & _ & Hops).
  split; [exact Hbad | split; [exact Hall|]].
  exact (Hops (Embed "hi" None) Hall).
Defined.

Lemma strip_prefix_app (p s : string) : strip_prefix p (p ++ s) = Some s.
Proof.
  induction p as [|c p IH]; cbn; [reflexivity|].
  rewrite Ascii.eqb_refl. exact IH.
Qed.

(** ** The Authorization header on its way *)

Lemma drop_trailing_cons (c : ascii) (r : string) :
  drop_trailing_http_whitespace (String c r)
  = match drop_trailing_http_whitespace r with
    | EmptyString => if is_http_whitespace c then EmptyString
                     else String c EmptyString
    | r' => String c r'
    end.
Proof. reflexivity. Qed.

Lemma drop_trailing_fixed (s : string) :
  s <> "" -> ends_with_http_whitespace s = false ->
  drop_trailing_http_whitespace s = s.
Proof.
  induction s as [|c r IH]; [congruence|]. intros _ Hend.
  rewrite drop_trailing_cons. destruct r as [|d r'].
  - cbn in *. rewrite Hend. reflexivity.
  - rewrite IH; [reflexivity | discriminate | exact Hend].
Qed.

Lemma drop_trailing_app (p t : string) :
  t <> "" -> drop_trailing_http_whitespace t = t ->
  drop_trailing_http_whitespace (p ++ t) = p ++ t.
Proof.
  intros Hne Ht. induction p as [|c p IH]; [exact Ht|].
  cbn [append]. rewrite drop_trailing_cons, IH.
  destruct (p ++ t) eqn:Happ; [|reflexivity].
  destruct p; [cbn in Happ; contradiction | discriminate Happ].
Qed.

Lemma all_chars_app (f : ascii -> bool) (s t : string) :
  all_chars f (s ++ t) = all_chars f s && all_chars f t.
Proof.
  induction s as [|c s IH]; [reflexivity|].
  cbn. rewrite IH. apply andb_assoc.
Qed.

Lemma header_token_no_space (token : string) :
  header_token token = true -> starts_with_space token = false.
Proof.
  unfold header_token. intros H.
  apply andb_true_iff in H as [H _]. apply andb_true_iff in H as [_ H].
  apply negb_true_iff. exact H.
Qed.

(** A Bearer header with such a token is delivered as it is. *)
Lemma bearer_header_value (token : string) :
  header_token token = true -> token <> "" ->
  header_value ("Bearer " ++ token) = Ok ("Bearer " ++ token).
Proof.
  unfold header_token. intros H Hne.
  apply andb_true_iff in H as [H Hend].
  apply andb_true_iff in H as [Hbytes _].
  apply negb_true_iff in Hend.
  unfold header_value, normalize_header_value.
  change (drop_http_whitespace ("Bearer " ++ token))
    with ("Bearer " ++ token).
  rewrite drop_trailing_app
    by (assumption || apply drop_trailing_fixed; assumption).
  rewrite all_chars_app, Hbytes. reflexivity.
Qed.

Lemma bearer_delivered (self : Client.RemoteLLM) :
  (forall token, Client.authToken self = Some token ->
                 header_token token = true) ->
  forall h, Client.bearer self = Some h -> header_value h = Ok h.
Proof.
  intros Htoken h. unfold Client.bearer.
  destruct (Client.authToken self) as [[|c t]|]; try discriminate.
  cbn [string_truthy]. intros [= <-].
  apply bearer_header_value; [apply Htoken; reflexivity | discriminate].
Qed.

Lemma http_exchange_delivered {W : Type} (origin host : string)
    (listener : Server.request -> M W Server.response)
    (url : string) (init : Client.fetch_init) :
  (forall h, Client.authorization init = Some h -> header_value h = Ok h) ->
  http_exchange origin host listener url init
  = exchange origin host listener url init.
Proof.
  intros Hsent. unfold http_exchange.
  destruct init as [method ctype [h|] body]; [|reflexivity].
  cbn [Client.authorization Client.fetch_method Client.content_type
         Client.fetch_body].
  rewrite (Hsent h eq_refl). reflexivity.
Qed.

(** When the proxy's header is delivered as it is, the operations go
    over HTTP as over an exchange without loss. *)
Lemma remote_over_http {JS : Platform} {W : Type} (origin host : string)
    (listener : Server.request -> M W Server.response)
    (self : Client.RemoteLLM) (op : operation) (w : W) :
  (forall h, Client.bearer self = Some h -> header_value h = Ok h) ->
  remote (http_exchange origin host listener) self op w
  = remote (exchange origin host listener) self op w.
Proof.
  intros Hsent.
  destruct op; cbn [remote];
    unfold Client.embed, Client.embedBatch, Client.generate,
      Client.expandQuery, Client.rerank, Client.tokenize,
      Client.countTokens, Client.detokenize, Client.modelExists,
      Client.getDeviceInfo, Client.post, Client.get, bind;
    rewrite http_exchange_delivered by exact Hsent; reflexivity.
Qed.

Section Refinement.
Context {JS : Platform} {S : Type}.
Variable llm : LLM S.

Lemma authenticated_bearer (self : Client.RemoteLLM) (req : Server.request) :
  (forall token, Client.authToken self = Some token ->
                 starts_with_space token = false) ->
  Server.req_authorization req = Client.bearer self ->
  authenticated (Client.authToken self) req = true.
Proof.
  intros Hstart Hreq. unfold authenticated, Client.bearer in *.
  destruct (Client.authToken self) as [[|c t]|]; try reflexivity.
  rewrite Hreq. cbn [string_truthy].
  change ("Bearer " ++ String c t) with ("Bearer" ++ " " ++ String c t).
  rewrite (strip_bearer_Bearer "Bearer" " " (String c t));
    [apply String.eqb_refl | reflexivity | discriminate | reflexivity
    | apply Hstart; reflexivity].
Qed.

(** A POST of the proxy that reaches an inference route whose engine
    call returns. *)
Lemma post_served (self : Client.RemoteLLM) (host : string)
    (uptime : number) (path : string) (body : value) (c : call)
    (v : value) (s : S) (w : world S) :
  (forall token, Client.authToken self = Some token ->
                 starts_with_space token = false) ->
  string_truthy path = true ->
  URL_pathname path ("http://" ++ or_string (Some host) "localhost")
  = Ok path ->
  wire_ok body ->
  body <> JNull ->
  called path body = Some c ->
  perform llm c (engine_state w) = (Ok v, s) ->
  wire_ok (wrapped c v) ->
  Client.post
    (exchange (Client.baseUrl self) host
       (Server.handler llm (Client.authToken self) uptime))
    self path body w
  = (Ok (wrapped c v), after w c s).
Proof.
  intros Hstart Hpath Hurl Hbody Hnull Hcalled Hrun Hresult.
  unfold Client.post, bind, exchange. rewrite strip_prefix_app.
  rewrite handler_respond. unfold path_of_request.
  cbn [Server.req_url Server.req_host Client.fetch_method
         Client.authorization Client.fetch_body].
  replace (or_string (Some path) "/") with path
    by (unfold or_string; rewrite Hpath; reflexivity).
  rewrite Hurl, authenticated_bearer by (assumption || reflexivity).
  rewrite respond_POST by reflexivity.
  cbn [Server.req_body]. rewrite Hbody, Hcalled, Hrun.
  destruct body; try contradiction; unfold reply;
    cbn [Client.resp_ok Client.resp_status Server.status Server.body negb];
    unfold Client.resp_json, bind, lift; cbn [Client.resp_text];
    rewrite Hresult; reflexivity.
Qed.

(** The GET of the proxy for /device, when the engine call returns. *)
Lemma get_device_served (self : Client.RemoteLLM) (host : string)
    (uptime : number) (v : value) (s : S) (w : world S) :
  (forall token, Client.authToken self = Some token ->
                 starts_with_space token = false) ->
  URL_pathname "/device" ("http://" ++ or_string (Some host) "localhost")
  = Ok "/device" ->
  getDeviceInfo llm (engine_state w) = (Ok v, s) ->
  wire_ok v ->
  Client.get
    (exchange (Client.baseUrl self) host
       (Server.handler llm (Client.authToken self) uptime))
    self "/device" w
  = (Ok v, after w CallGetDeviceInfo s).
Proof.
  intros Hstart Hurl Hrun Hresult.
  unfold Client.get, bind, exchange. rewrite strip_prefix_app.
  rewrite handler_respond. unfold path_of_request.
  cbn [Server.req_url Server.req_host Client.fetch_method
         Client.authorization Client.fetch_body].
  change (or_string (Some "/device") "/") with "/device".
  rewrite Hurl, authenticated_bearer by (assumption || reflexivity).
  unfold respond. cbn [perform]. rewrite Hrun. unfold reply.
  cbn. unfold Client.resp_json, bind, lift. cbn [Client.resp_text].
  rewrite Hresult. reflexivity.
Qed.

Ltac engine_returns H :=
  unfold direct, bind, invoke in H;
  match type of H with
  | context [?m (engine_state ?w)] =>
      let r := fresh "r" in
      let e := fresh "e" in
      let s := fresh "s" in
      let Hrun := fresh "Hrun" in
      destruct (m (engine_state w)) as [[r|e] s] eqn:Hrun;
      [|discriminate H]
  end;
  cbn [ret] in H; injection H as <- <-.

(** The refinement over an exchange without loss, for a token that the
    removal of the Bearer prefix leaves as it is. *)
Lemma refines_over_exchange (self : Client.RemoteLLM) (host : string)
    (uptime : number) (op : operation) (w w' : world S) (v : value) :
  (forall token, Client.authToken self = Some token ->
                 starts_with_space token = false) ->
  URL_pathname (path_of op) ("http://" ++ or_string (Some host) "localhost")
  = Ok (path_of op) ->
  (forall b, request_envelope op = Some b -> wire_ok b) ->
  direct llm op w = (Ok (Some v), w') ->
  wire_ok (response_envelope op v) ->
  remote
    (exchange (Client.baseUrl self) host
       (Server.handler llm (Client.authToken self) uptime))
    self op w
  = (Ok (Some v), w').
Proof.
  intros Hstart Hurl Hreq Hdirect Hresp.
  assert (Hpost : forall path body c r s,
    path_of op = path -> string_truthy path = true ->
    request_envelope op = Some body -> body <> JNull ->
    called path body = Some c ->
    perform llm c (engine_state w) = (Ok r, s) ->
    response_envelope op v = wrapped c r ->
    Client.post
      (exchange (Client.baseUrl self) host
         (Server.handler llm (Client.authToken self) uptime))
      self path body w
    = (Ok (wrapped c r), after w c s)).
  { intros path body c r s Hp Htruthy Hbody Hnull Hcalled Hrun Hwrap.
    apply post_served; try assumption.
    - rewrite <- Hp. exact Hurl.
    - apply Hreq. exact Hbody.
    - rewrite <- Hwrap. exact Hresp. }
  destruct op as [text options | texts | prompt options | query options
                  | query documents options | text | text | tokens | model | ];
    cbn [path_of request_envelope response_envelope remote] in *;
    engine_returns Hdirect;
    unfold Client.embed, Client.embedBatch, Client.generate,
      Client.expandQuery, Client.rerank, Client.tokenize,
      Client.countTokens, Client.detokenize, Client.modelExists,
      Client.getDeviceInfo;
    unfold bind at 1.
  - rewrite (Hpost _ _ (CallEmbed (Some (JStr text)) options) r s
               eq_refl eq_refl eq_refl);
      solve [reflexivity | discriminate | exact Hrun
             | destruct options; reflexivity].
  - rewrite (Hpost _ _ (CallEmbedBatch (Some (JArr (map JStr texts)))) r s
               eq_refl eq_refl eq_refl);
      solve [reflexivity | discriminate | exact Hrun].
  - rewrite (Hpost _ _ (CallGenerate (Some (JStr prompt)) options) r s
               eq_refl eq_refl eq_refl);
      solve [reflexivity | discriminate | exact Hrun
             | destruct options; reflexivity].
  - rewrite (Hpost _ _ (CallExpandQuery (Some (JStr query)) options) r s
               eq_refl eq_refl eq_refl);
      solve [reflexivity | discriminate | exact Hrun
             | destruct options; reflexivity].
  - rewrite (Hpost _ _
               (CallRerank (Some (JStr query)) (Some (JArr documents))
                  options) r s eq_refl eq_refl eq_refl);
      solve [reflexivity | discriminate | exact Hrun
             | destruct options; reflexivity].
  - rewrite (Hpost _ _ (CallTokenize (Some (JStr text)))
               (JArr (map JNum r)) s
               eq_refl eq_refl eq_refl);
      solve [reflexivity | discriminate
             | unfold perform, bind; rewrite Hrun; reflexivity].
  - rewrite (Hpost _ _ (CallCountTokens (Some (JStr text)))
               (JNum r) s eq_refl eq_refl eq_refl);
      solve [reflexivity | discriminate
             | unfold perform, bind; rewrite Hrun; reflexivity].
  - rewrite (Hpost _ _ (CallDetokenize (Some (JArr (map JNum tokens))))
               (JStr r) s eq_refl eq_refl eq_refl);
      solve [reflexivity | discriminate
             | unfold perform, bind; rewrite Hrun; reflexivity].
  - rewrite (Hpost _ _ (CallModelExists (Some (JStr model))) r s
               eq_refl eq_refl eq_refl);
      solve [reflexivity | discriminate | exact Hrun].
  - rewrite (get_device_served self host uptime r s w Hstart Hurl Hrun Hresp).
    reflexivity.
Qed.

(** C1 (as amended).  For every operation and all arguments: when the
    server is reached at the proxy's base URL, the proxy and the
    server hold the same token, that token (if any) is made of bytes
    a header can hold, does not begin with whitespace and does not
    end with HTTP whitespace, the bodies of the request
    and of the response survive serialisation, and the engine, called
    directly with these arguments, returns a result, then the proxy
    call over HTTP returns the same result and leaves the engine in
    the same state, having made the same single call. *)
Theorem remote_refines_direct (self : Client.RemoteLLM) (host : string)
    (uptime : number) (op : operation) (w w' : world S) (v : value) :
  (forall token, Client.authToken self = Some token ->
                 header_token token = true) ->
  URL_pathname (path_of op) ("http://" ++ or_string (Some host) "localhost")
  = Ok (path_of op) ->
  (forall b, request_envelope op = Some b -> wire_ok b) ->
  direct llm op w = (Ok (Some v), w') ->
  wire_ok (response_envelope op v) ->
  remote
    (http_exchange (Client.baseUrl self) host
       (Server.handler llm (Client.authToken self) uptime))
    self op w
  = (Ok (Some v), w').
Proof.
  intros Htoken Hurl Hreq Hdirect Hresp.
  rewrite remote_over_http by (apply bearer_delivered; exact Htoken).
  apply refines_over_exchange; try assumption.
  intros token Hself. apply header_token_no_space, Htoken, Hself.
Qed.
End Refinement.

(** C1, the claim as stated fails.  With the same token on both sides,
    count-tokens returns 2 on the engine but fails through the proxy
    when the token begins with a space ([ x]: the server removes the
    space with the Bearer prefix), and when it ends with one ([abc ]:
    the header loses the space on its way); in both cases the server
    answers 401.  With a line feed inside the token ([a], line feed,
    [b]) the header cannot be sent at all and the call is rejected
    before the server is reached. *)
Lemma token_whitespace_mismatch :
  let proxy token := Client.new_RemoteLLM
                       {| Client.url := "http://gpu/";
                          Client.cfg_authToken := Some token;
                          Client.cfg_timeoutMs := None |} in
  let op := CountTokens (JS := Node.platform) "hi" in
  let over token :=
    remote
      (http_exchange (Client.baseUrl (proxy token)) "gpu"
         (Server.handler Demo.engine (Some token) 7%Z))
      (proxy token) op Demo.start in
  let unauthorized :=
    Error ("QMD remote /count-tokens failed (401): "
           ++ error_body (JS := Node.platform) "Unauthorized") in
  fst (direct Demo.engine op Demo.start) = Ok (Some (JNum 2%Z))
  /\ over " x" = (Throw unauthorized, Demo.start)
  /\ over "abc " = (Throw unauthorized, Demo.start)
  /\ exists e, over ("a" ++ String "010" "b") = (Throw e, Demo.start).
Proof.
  repeat split; try reflexivity. eexists. reflexivity.
Qed.

Lemma remote_refines_direct_witness :
  let self := Client.new_RemoteLLM
                {| Client.url := "http://gpu//";
                   Client.cfg_authToken := Some "s3cret";
                   Client.cfg_timeoutMs := None |} in
  let op := Tokenize (JS := Node.platform) "hi" in
  let v : value (JS := Node.platform) := JArr [JNum 104%Z; JNum 105%Z] in
  let w' := after Demo.start (CallTokenize (Some (JStr "hi"))) 1%nat in
  ((forall token, Client.authToken self = Some token ->
                  header_token token = true)
   /\ Node.pathname (path_of op)
        ("http://" ++ or_string (Some "gpu") "localhost")
      = Ok (path_of op)
   /\ (forall b, request_envelope op = Some b -> wire_ok b)
   /\ direct Demo.engine op Demo.start = (Ok (Some v), w')
   /\ wire_ok (response_envelope op v))
  /\ remote
       (http_exchange (Client.baseUrl self) "gpu"
          (Server.handler Demo.engine (Client.authToken self) 7%Z))
       self op Demo.start
     = (Ok (Some v), w').
Proof.
  intros self op v w'.
  assert (Htoken : forall token, Client.authToken self = Some token ->
                                 header_token token = true)
    by (intros token [= <-]; reflexivity).
  assert (Hreq : forall b, request_envelope op = Some b -> wire_ok b)
    by (intros b [= <-]; reflexivity).
  assert (Hresp : wire_ok (response_envelope op v)) by reflexivity.
  split; [repeat split; assumption|].
  exact (remote_refines_direct (JS := Node.platform) Demo.engine self "gpu"
           7%Z op Demo.start w' v Htoken eq_refl Hreq eq_refl Hresp).
Defined.

(* ================================================================== *)
(** * Further properties of the credential store *)
(* ================================================================== *)

(** Lists of bytes, three at a time. *)
Lemma bytes_ind3 (P : list Byte.byte -> Prop) :
  P [] -> (forall a, P [a]) -> (forall a b, P [a; b]) ->
  (forall a b c rest, P rest -> P (a :: b :: c :: rest)) ->
  forall bytes, P bytes.
Proof.
  intros H0 H1 H2 H3.
  fix IH 1. intros [|a [|b [|c rest]]];
    [apply H0 | apply H1 | apply H2 | apply H3; apply IH].
Qed.

Lemma sextet_url_safe (n : N) : url_safe (Auth.sextet n) = true.
Proof.
  unfold Auth.sextet.
  destruct (N.ltb_spec n 64) as [Hlt|Hge].
  - assert (Hn : (N.to_nat n < 64)%nat) by lia.
    generalize dependent (N.to_nat n). intros m Hm.
    do 64 (destruct m as [|m]; [reflexivity|]). lia.
  - assert (Hn : (64 <= N.to_nat n)%nat) by lia.
    generalize dependent (N.to_nat n). intros m Hm.
    do 64 (destruct m as [|m]; [lia|]). reflexivity.
Qed.

Lemma url_safe_not_space (c : ascii) :
  url_safe c = true -> is_js_space c = false.
Proof.
  unfold url_safe, is_js_space. intros H.
  destruct (N.leb_spec 9 (N_of_ascii c)), (N.leb_spec (N_of_ascii c) 13),
    (N.eqb_spec (N_of_ascii c) 32), (N.eqb_spec (N_of_ascii c) 160);
    cbn; try reflexivity; exfalso;
    repeat match type of H with
           | context [(?a <=? ?b)%N] => destruct (N.leb_spec a b)
           | context [(?a =? ?b)%N] => destruct (N.eqb_spec a b)
           end; cbn in H; try discriminate; lia.
Qed.

Lemma below_spec (n : nat) (p : N -> bool) :
  below n p = true -> forall x, (x < N.of_nat n)%N -> p x = true.
Proof.
  induction n as [|n IH]; cbn [below]; intros Hall x Hx; [lia|].
  apply andb_true_iff in Hall as [Hn Hrest].
  destruct (N.eq_dec x (N.of_nat n)) as [->|Hne]; [exact Hn|].
  apply IH; [exact Hrest | lia].
Qed.

Lemma unsextet_sextet (n : N) :
  (n < 64)%N -> unsextet (Auth.sextet n) = Some n.
Proof.
  intros Hn.
  apply (below_spec 64
           (fun k => match unsextet (Auth.sextet k) with
                     | Some k' => (k' =? k)%N
                     | None => false
                     end)) in Hn; [|vm_compute; reflexivity].
  destruct (unsextet (Auth.sextet n)) as [k|]; [|discriminate].
  apply N.eqb_eq in Hn. rewrite Hn. reflexivity.
Qed.

Lemma byte_parts (a : N) :
  (a < 256)%N ->
  (N.shiftr a 2 < 64 /\ N.land a 3 < 4 /\ N.shiftr a 4 < 16
   /\ N.land a 15 < 16 /\ N.shiftr a 6 < 4 /\ N.land a 63 < 64)%N.
Proof.
  intros Ha.
  apply (below_spec 256
           (fun a => (N.shiftr a 2 <? 64) && (N.land a 3 <? 4)
                     && (N.shiftr a 4 <? 16) && (N.land a 15 <? 16)
                     && (N.shiftr a 6 <? 4) && (N.land a 63 <? 64))%N)
    in Ha; [|vm_compute; reflexivity].
  repeat (apply andb_true_iff in Ha as [Ha ?]).
  repeat split; apply N.ltb_lt; assumption.
Qed.

(** The first byte from the first two sextets. *)
Lemma first_byte (a z : N) :
  (a < 256)%N -> (z < 16)%N ->
  let s2 := N.lor (N.shiftl (N.land a 3) 4) z in
  (s2 < 64 /\ N.shiftr a 2 * 4 + s2 / 16 = a)%N.
Proof.
  intros Ha Hz.
  pose (check := fun a z : N =>
    let s2 := N.lor (N.shiftl (N.land a 3) 4) z in
    ((s2 <? 64) && (N.shiftr a 2 * 4 + s2 / 16 =? a))%N).
  assert (Hall : below 256 (fun a => below 16 (check a)) = true)
    by (vm_compute; reflexivity).
  pose proof (below_spec 16 _ (below_spec 256 _ Hall a Ha) z Hz) as H.
  unfold check in H. apply andb_true_iff in H as [H1 H2].
  split; [apply N.ltb_lt, H1 | apply N.eqb_eq, H2].
Qed.

(** The second byte from the second and third sextets. *)
Lemma second_byte (x b y : N) :
  (x < 4)%N -> (b < 256)%N -> (y < 4)%N ->
  let s2 := N.lor (N.shiftl x 4) (N.shiftr b 4) in
  let s3 := N.lor (N.shiftl (N.land b 15) 2) y in
  (s3 < 64 /\ (s2 mod 16) * 16 + s3 / 4 = b)%N.
Proof.
  intros Hx Hb Hy.
  pose (check := fun x b y : N =>
    let s2 := N.lor (N.shiftl x 4) (N.shiftr b 4) in
    let s3 := N.lor (N.shiftl (N.land b 15) 2) y in
    ((s3 <? 64) && ((s2 mod 16) * 16 + s3 / 4 =? b))%N).
  assert (Hall : below 4 (fun x => below 256 (fun b => below 4 (check x b)))
                 = true) by (vm_compute; reflexivity).
  pose proof (below_spec 4 _
                (below_spec 256 _ (below_spec 4 _ Hall x Hx) b Hb) y Hy) as H.
  unfold check in H. apply andb_true_iff in H as [H1 H2].
  split; [apply N.ltb_lt, H1 | apply N.eqb_eq, H2].
Qed.

(** The third byte from the last two sextets. *)
Lemma third_byte (y c : N) :
  (y < 16)%N -> (c < 256)%N ->
  let s3 := N.lor (N.shiftl y 2) (N.shiftr c 6) in
  ((s3 mod 4) * 64 + N.land c 63 = c)%N.
Proof.
  intros Hy Hc.
  pose (check := fun y c : N =>
    let s3 := N.lor (N.shiftl y 2) (N.shiftr c 6) in
    ((s3 mod 4) * 64 + N.land c 63 =? c)%N).
  assert (Hall : below 16 (fun y => below 256 (check y)) = true)
    by (vm_compute; reflexivity).
  pose proof (below_spec 256 _ (below_spec 16 _ Hall y Hy) c Hc) as H.
  apply N.eqb_eq, H.
Qed.

Lemma to_N_below (a : Byte.byte) : (Byte.to_N a < 256)%N.
Proof. pose proof (Byte.to_N_bounded a). lia. Qed.

Lemma base64url_decode_encode (bytes : list Byte.byte) :
  base64url_decode (Auth.base64url bytes) = Some bytes.
Proof.
  induction bytes as [|a|a b|a b c rest IH] using bytes_ind3.
  - reflexivity.
  - pose proof (to_N_below a) as Ha.
    destruct (byte_parts _ Ha) as (Ha2 & Ha3 & _).
    destruct (first_byte _ 0%N Ha ltac:(lia)) as [Hs2 Hfirst].
    rewrite N.lor_0_r in Hs2, Hfirst.
    cbn [Auth.base64url base64url_decode].
    rewrite !unsextet_sextet by assumption.
    rewrite Hfirst, Byte.of_to_N. reflexivity.
  - pose proof (to_N_below a) as Ha. pose proof (to_N_below b) as Hb.
    destruct (byte_parts _ Ha) as (Ha2 & Ha3 & _).
    destruct (byte_parts _ Hb) as (_ & _ & Hb4 & Hb15 & _).
    destruct (first_byte _ _ Ha Hb4) as [Hs2 Hfirst].
    destruct (second_byte _ _ 0%N Ha3 Hb ltac:(lia)) as [Hs3 Hsecond].
    rewrite N.lor_0_r in Hs3, Hsecond.
    cbn [Auth.base64url base64url_decode].
    rewrite !unsextet_sextet by assumption.
    rewrite Hfirst, Hsecond, !Byte.of_to_N. reflexivity.
  - pose proof (to_N_below a) as Ha. pose proof (to_N_below b) as Hb.
    pose proof (to_N_below c) as Hc.
    destruct (byte_parts _ Ha) as (Ha2 & Ha3 & _).
    destruct (byte_parts _ Hb) as (_ & _ & Hb4 & Hb15 & _).
    destruct (byte_parts _ Hc) as (_ & _ & _ & _ & Hc6 & Hc63).
    destruct (first_byte _ _ Ha Hb4) as [Hs2 Hfirst].
    destruct (second_byte _ _ _ Ha3 Hb Hc6) as [Hs3 Hsecond].
    pose proof (third_byte _ _ Hb15 Hc) as Hthird.
    cbn [Auth.base64url base64url_decode].
    rewrite !unsextet_sextet by assumption.
    rewrite Hfirst, Hsecond, Hthird, !Byte.of_to_N, IH. reflexivity.
Qed.

Lemma base64url_length (bytes : list Byte.byte) :
  String.length (Auth.base64url bytes) = ((4 * length bytes + 2) / 3)%nat.
Proof.
  induction bytes as [|a|a b|a b c rest IH] using bytes_ind3;
    try reflexivity.
  cbn [Auth.base64url String.length length]. rewrite IH.
  replace (4 * S (S (S (length rest))) + 2)%nat
    with ((4 * length rest + 2) + 4 * 3)%nat by lia.
  rewrite Nat.div_add by discriminate. lia.
Qed.

Lemma base64url_url_safe (bytes : list Byte.byte) :
  all_chars url_safe (Auth.base64url bytes) = true.
Proof.
  induction bytes as [|a|a b|a b c rest IH] using bytes_ind3;
    cbn [Auth.base64url all_chars]; rewrite ?sextet_url_safe, ?IH;
    reflexivity.
Qed.

Lemma url_safe_no_space (s : string) :
  all_chars url_safe s = true -> starts_with_space s = false.
Proof.
  destruct s as [|c s]; [reflexivity|]. cbn. intros H.
  apply andb_true_iff in H as [H _]. apply url_safe_not_space, H.
Qed.

Lemma generateToken_returns (random : list Byte.byte) (now : string)
    (st st' : Auth.fs) (token : string) {JS : Platform} :
  Auth.generateToken random now st = (Ok token, st') ->
  token = Auth.base64url random.
Proof.
  unfold Auth.generateToken, bind.
  destruct st as [|[|text|]]; cbn; intros Heq;
    try discriminate Heq; injection Heq as <- _; reflexivity.
Qed.

Section TokenProperties.
Context {JS : Platform}.

(** X1.  A token that [generateToken] returns for 32 random bytes is 43
    characters long and made only of letters, digits, [-] and [_]. *)
Theorem generated_token_shape (random : list Byte.byte) (now : string)
    (st st' : Auth.fs) (token : string) :
  length random = 32%nat ->
  Auth.generateToken random now st = (Ok token, st') ->
  String.length token = 43%nat /\ all_chars url_safe token = true.
Proof.
  intros Hlen Hgen. apply generateToken_returns in Hgen. subst token.
  rewrite base64url_length, base64url_url_safe, Hlen. split; reflexivity.
Qed.

(** X2.  The token keeps all of the randomness: two runs of
    [generateToken] that return the same token drew the same bytes. *)
Theorem generated_token_injective (random1 random2 : list Byte.byte)
    (now1 now2 : string) (st1 st2 st1' st2' : Auth.fs) (token : string) :
  Auth.generateToken random1 now1 st1 = (Ok token, st1') ->
  Auth.generateToken random2 now2 st2 = (Ok token, st2') ->
  random1 = random2.
Proof.
  intros H1 H2.
  apply generateToken_returns in H1. apply generateToken_returns in H2.
  assert (Hdec : Some random1 = Some random2).
  { rewrite <- (base64url_decode_encode random1),
      <- (base64url_decode_encode random2), <- H1, <- H2. reflexivity. }
  injection Hdec as Heq. exact Heq.
Qed.
End TokenProperties.

Lemma generated_token_shape_witness :
  let token := Auth.base64url Demo.entropy in
  let now := "2026-11-01T09:30:00.000Z" in
  let st' :=
    Auth.ConfigDir
      (Auth.File (Node.stringify_indent
                    (credential (JS := Node.platform) token now) 2
                  ++ String "010" "")) in
  (length Demo.entropy = 32%nat
   /\ Auth.generateToken (JS := Node.platform) Demo.entropy now
        Auth.NoConfigDir = (Ok token, st'))
  /\ String.length token = 43%nat /\ all_chars url_safe token = true.
Proof.
  intros token now st'.
  assert (Hlen : length Demo.entropy = 32%nat) by reflexivity.
  assert (Hgen : Auth.generateToken (JS := Node.platform) Demo.entropy now
                   Auth.NoConfigDir = (Ok token, st')) by reflexivity.
  split; [split; assumption|].
  exact (generated_token_shape (JS := Node.platform) Demo.entropy now
           Auth.NoConfigDir st' token Hlen Hgen).
Defined.

Lemma generated_token_injective_witness :
  let token := Auth.base64url Demo.entropy in
  let file (now : string) :=
    Auth.ConfigDir
      (Auth.File (Node.stringify_indent
                    (credential (JS := Node.platform) token now) 2
                  ++ String "010" "")) in
  (Auth.generateToken (JS := Node.platform) Demo.entropy "2026-11-01"
     Auth.NoConfigDir = (Ok token, file "2026-11-01")
   /\ Auth.generateToken (JS := Node.platform) Demo.entropy "2026-11-02"
        (Auth.ConfigDir Auth.Absent) = (Ok token, file "2026-11-02"))
  /\ Demo.entropy = Demo.entropy.
Proof.
  intros token file.
  assert (H1 : Auth.generateToken (JS := Node.platform) Demo.entropy
                 "2026-11-01" Auth.NoConfigDir
               = (Ok token, file "2026-11-01")) by reflexivity.
  assert (H2 : Auth.generateToken (JS := Node.platform) Demo.entropy
                 "2026-11-02" (Auth.ConfigDir Auth.Absent)
               = (Ok token, file "2026-11-02")) by reflexivity.
  split; [split; assumption|].
  exact (generated_token_injective (JS := Node.platform) _ _ _ _ _ _ _ _ _
           H1 H2).
Defined.

(** X3.  [revokeToken] never throws.  It returns [true] exactly when
    [require] is bound (the CommonJS build) and a regular file was
    there, and that file is then gone; otherwise it returns [false]
    and changes nothing.  In the ES module that [auth.ts] is it
    therefore always returns [false] and deletes nothing.  A second
    call returns [false] in every case. *)
Theorem revokeToken_outcome (scope : Auth.module_scope) (st : Auth.fs) :
  exists deleted st',
    Auth.revokeToken scope st = (Ok deleted, st')
    /\ (deleted = true <->
        scope = Auth.CommonJS
        /\ exists content, st = Auth.ConfigDir (Auth.File content))
    /\ (deleted = true -> st' = Auth.ConfigDir Auth.Absent)
    /\ (deleted = false -> st' = st)
    /\ (scope = Auth.ESModule -> deleted = false)
    /\ Auth.revokeToken scope st' = (Ok false, st').
Proof.
  destruct scope.
  - exists false, st. rewrite revokeToken_ESModule.
    repeat split; try discriminate. intros [Hs _]. discriminate Hs.
  - destruct st as [|[|content|]]; cbn.
    + exists false, Auth.NoConfigDir. repeat split; try discriminate.
      intros [_ [c Hc]]. discriminate Hc.
    + exists false, (Auth.ConfigDir Auth.Absent).
      repeat split; try discriminate. intros [_ [c Hc]]. discriminate Hc.
    + exists true, (Auth.ConfigDir Auth.Absent).
      repeat split; try discriminate. exists content. reflexivity.
    + exists false, (Auth.ConfigDir Auth.Directory).
      repeat split; try discriminate. intros [_ [c Hc]]. discriminate Hc.
Qed.

(* ================================================================== *)
(** * Further properties of the inference server *)
(* ================================================================== *)

Lemma drop_spaces_no_space (s : string) :
  starts_with_space (drop_spaces s) = false.
Proof.
  induction s as [|c s IH]; [reflexivity|]. cbn [drop_spaces].
  destruct (is_js_space c) eqn:Hc; [exact IH|]. cbn. exact Hc.
Qed.

Lemma strip_bearer_no_space (h : string) :
  has_bearer_prefix h = true -> starts_with_space (strip_bearer h) = false.
Proof.
  unfold has_bearer_prefix, strip_bearer, starts_with_space.
  destruct (match_ci "Bearer" h) as [[|c r]|]; try discriminate.
  intros ->. apply drop_spaces_no_space.
Qed.

Section ServerProperties.
Context {JS : Platform} {S : Type}.
Variable llm : LLM S.

(** X4.  A token made by [Auth.base64url] from at least one byte is
    accepted behind a Bearer prefix: a request carrying it passes
    authentication on a server configured with it and goes to
    routing. *)
Theorem generated_token_authenticates (random : list Byte.byte)
    (uptime : number) (req : Server.request) (w : world S) (path : string) :
  random <> [] ->
  path_of_request req = Ok path ->
  Server.req_authorization req = Some ("Bearer " ++ Auth.base64url random) ->
  Server.handler llm (Some (Auth.base64url random)) uptime req w
  = respond llm uptime req path w.
Proof.
  intros Hne Hpath Hheader.
  rewrite handler_respond, Hpath. unfold authenticated.
  pose proof (base64url_truthy random Hne) as Htruthy.
  destruct (Auth.base64url random) as [|c t] eqn:Htoken; [discriminate|].
  rewrite Hheader.
  change ("Bearer " ++ String c t) with ("Bearer" ++ " " ++ String c t).
  rewrite strip_bearer_Bearer, String.eqb_refl;
    [reflexivity | reflexivity | discriminate | reflexivity |].
  rewrite <- Htoken. apply url_safe_no_space, base64url_url_safe.
Qed.

(** X5.  A token that begins with whitespace cannot be presented with
    the Bearer scheme: whatever follows the prefix, the request gets
    401. *)
Theorem spaced_token_rejects_bearer (token h : string) (uptime : number)
    (req : Server.request) (w : world S) (path : string) :
  starts_with_space token = true ->
  path_of_request req = Ok path ->
  Server.req_authorization req = Some h ->
  has_bearer_prefix h = true ->
  Server.handler llm (Some token) uptime req w
  = reply 401 (error_body "Unauthorized") w.
Proof.
  intros Hspace Hpath Hheader Hprefix.
  rewrite handler_respond, Hpath. unfold authenticated.
  destruct token as [|c t]; [discriminate|]. rewrite Hheader.
  destruct (String.eqb_spec (strip_bearer h) (String c t)) as [Heq|];
    [|reflexivity].
  apply strip_bearer_no_space in Hprefix. rewrite Heq, Hspace in Hprefix.
  discriminate.
Qed.

(** X6.  The listener answers every request whose URL parses: it never
    throws then.  When the URL does not parse it throws before anything
    else is done: no response, no engine call. *)
Theorem handler_answers (authToken : option string) (uptime : number)
    (req : Server.request) (w : world S) :
  (forall path, path_of_request req = Ok path ->
                exists r w', Server.handler llm authToken uptime req w
                             = (Ok r, w'))
  /\ (forall e, path_of_request req = Throw e ->
                Server.handler llm authToken uptime req w = (Throw e, w)).
Proof.
  split.
  - intros path Hpath. rewrite handler_respond, Hpath.
    destruct (authenticated authToken req).
    + apply respond_total.
    + eexists. eexists. reflexivity.
  - intros e He. rewrite handler_respond, He. reflexivity.
Qed.

Lemma respond_world (uptime : number) (req : Server.request)
    (path : string) (w w' : world S) (r : Server.response) :
  respond llm uptime req path w = (Ok r, w') ->
  (w' = w \/ exists c s, w' = after w c s)
  /\ (In (Server.status r) [400; 404; 405]%N -> w' = w).
Proof.
  unfold respond, reply.
  repeat match goal with
         | |- context [if ?b then _ else _] => destruct b
         | |- context [match ?x with _ => _ end] => destruct x
         end;
    intros Heq; injection Heq as <- <-; (split; [eauto|]);
    cbn; intros Hin;
    repeat destruct Hin as [Hin|Hin]; try discriminate Hin;
    try contradiction; reflexivity.
Qed.

(** X7.  Handling one request invokes the engine at most once: the
    state afterwards is the state before, or the state after a single
    recorded call.  A request answered 400, 401, 404 or 405 leaves the
    engine untouched. *)
Theorem handler_one_call (authToken : option string) (uptime : number)
    (req : Server.request) (w w' : world S) (r : Server.response) :
  Server.handler llm authToken uptime req w = (Ok r, w') ->
  (w' = w \/ exists c s, w' = after w c s)
  /\ (In (Server.status r) [400; 401; 404; 405]%N -> w' = w).
Proof.
  rewrite handler_respond.
  destruct (path_of_request req) as [path|e]; [|discriminate].
  destruct (authenticated authToken req).
  - intros Hr. destruct (respond_world _ _ _ _ _ _ Hr) as [Hone Hnone].
    split; [exact Hone|].
    intros [H|[H|H]]; [apply Hnone; cbn; auto | | apply Hnone; cbn; auto].
    pose proof (respond_status llm _ _ _ _ _ _ Hr) as Hst.
    rewrite <- H in Hst. cbn in Hst.
    repeat destruct Hst as [Hst|Hst]; try discriminate Hst. contradiction.
  - intros [= <- <-]. split; auto.
Qed.

(** X8.  Only the properties a route names are read from the body:
    two authenticated POST requests that differ only in their bodies,
    neither of them [null], get the same response and leave the same
    state when the bodies agree on those properties.  Extra fields are
    ignored, and a body that is not an object counts as one without
    fields. *)
Theorem extra_fields_ignored (authToken : option string) (uptime : number)
    (url host method authorization : option string) (raw1 raw2 : string)
    (body1 body2 : value) (w : world S) :
  JSON_parse raw1 = Ok body1 -> JSON_parse raw2 = Ok body2 ->
  body1 <> JNull -> body2 <> JNull ->
  (forall k,
      In k ["text"; "options"; "texts"; "prompt"; "query"; "documents";
            "tokens"; "model"] ->
      prop body1 k = prop body2 k) ->
  Server.handler llm authToken uptime
    (Server.Request url host method authorization (Ok raw1)) w
  = Server.handler llm authToken uptime
      (Server.Request url host method authorization (Ok raw2)) w.
Proof.
  intros Hp1 Hp2 Hn1 Hn2 Hagree.
  assert (Hcalled : forall path, called path body1 = called path body2).
  { intros path. unfold called.
    rewrite !(Hagree "text"), !(Hagree "options"), !(Hagree "texts"),
      !(Hagree "prompt"), !(Hagree "query"), !(Hagree "documents"),
      !(Hagree "tokens"), !(Hagree "model") by (cbn; tauto).
    reflexivity. }
  rewrite !handler_respond. unfold path_of_request, authenticated.
  cbn [Server.req_url Server.req_host Server.req_authorization].
  destruct (URL_pathname _ _) as [path|e]; [|reflexivity].
  match goal with |- (if ?b then _ else _) = _ => destruct b end;
    [|reflexivity].
  unfold respond, method_is. cbn [Server.req_method Server.req_body].
  rewrite Hp1, Hp2, Hcalled.
  destruct body1; try contradiction; destruct body2; try contradiction;
    reflexivity.
Qed.

(** X9.  An authenticated POST to an inference route whose body is the
    JSON value [null] is answered 500 with the message of the TypeError
    that destructuring it raises; the engine is not invoked. *)
Theorem null_body_is_500 (authToken : option string) (uptime : number)
    (req : Server.request) (w : world S) (path raw : string) (c : call) :
  path_of_request req = Ok path ->
  authenticated authToken req = true ->
  method_is req "POST" = true ->
  Server.req_body req = Ok raw ->
  JSON_parse raw = Ok JNull ->
  called path JNull = Some c ->
  Server.handler llm authToken uptime req w
  = reply 500
      (error_body
         (failure_message (destructure_null_error (first_property c)))) w.
Proof.
  intros Hpath Hauth Hpost Hraw Hparse Hcalled.
  rewrite handler_respond, Hpath, Hauth, respond_POST by assumption.
  rewrite Hraw, Hparse, Hcalled. reflexivity.
Qed.

(** X10.  The two GET endpoints, for an authenticated request.  GET
    /health answers 200 with the uptime without touching the engine,
    whatever the engine and the request body are.  GET /device answers
    200 with the device information when the engine returns it, and
    500 with the error's message as it is, even an empty one, when the
    engine throws. *)
Theorem utility_endpoints (authToken : option string) (uptime : number)
    (req : Server.request) (w : world S) (path : string) :
  path_of_request req = Ok path ->
  authenticated authToken req = true ->
  method_is req "GET" = true ->
  (path = "/health" ->
   Server.handler llm authToken uptime req w
   = reply 200 (health_body uptime) w)
  /\ (path = "/device" ->
      Server.handler llm authToken uptime req w
      = match getDeviceInfo llm (engine_state w) with
        | (Ok info, s) =>
            reply 200 (JSON_stringify info) (after w CallGetDeviceInfo s)
        | (Throw e, s) =>
            reply 500 (error_body (message e))
              (after w CallGetDeviceInfo s)
        end).
Proof.
  intros Hpath Hauth Hget.
  rewrite handler_respond, Hpath, Hauth. unfold respond. rewrite Hget.
  split; intros ->; reflexivity.
Qed.

Lemma accept_answers (authToken : option string) (w : world S)
    (a : number * Server.request) (path : string) :
  path_of_request (snd a) = Ok path ->
  exists r w', Server.accept llm authToken (Server.Process true w) a
               = (Some r, Server.Process true w').
Proof.
  intros Hpath. unfold Server.accept. cbn [Server.listening Server.state].
  rewrite handler_respond, Hpath.
  destruct (authenticated authToken (snd a)).
  - destruct (respond_total llm (fst a) (snd a) path w) as (r & w' & Hr).
    rewrite Hr. eauto.
  - unfold reply. eauto.
Qed.

(** X11.  As long as the URLs of the arriving requests parse, every one
    of them gets a response and the process is still listening after
    the last. *)
Theorem serve_answers_all (authToken : option string)
    (arrivals : list (number * Server.request)) (w : world S) :
  Forall (fun a => exists path, path_of_request (snd a) = Ok path)
    arrivals ->
  let result := Server.serve llm authToken (Server.Process true w) arrivals in
  Server.listening (snd result) = true
  /\ length (fst result) = length arrivals
  /\ Forall (fun r => r <> None) (fst result).
Proof.
  intros Hall. revert w.
  induction Hall as [|a rest [path Hpath] _ IH]; intros w; cbn [Server.serve].
  - cbn. auto.
  - destruct (accept_answers authToken w a path Hpath) as (r & w' & Hacc).
    rewrite Hacc. specialize (IH w').
    destruct (Server.serve llm authToken (Server.Process true w') rest)
      as [rs p]. cbn [fst snd length] in *.
    destruct IH as (Hlisten & Hlen & Hsome).
    repeat split; [exact Hlisten | congruence |].
    constructor; [discriminate | exact Hsome].
Qed.
End ServerProperties.

Lemma generated_token_authenticates_witness :
  let token := Auth.base64url Demo.entropy in
  let req := Demo.GET "/health" (Some ("Bearer " ++ token)) in
  (Demo.entropy <> []
   /\ path_of_request (JS := Node.platform) req = Ok "/health")
  /\ Server.handler (JS := Node.platform) Demo.engine (Some token) 7%Z req
       Demo.start
     = respond Demo.engine 7%Z req "/health" Demo.start.
Proof.
  intros token req.
  assert (Hne : Demo.entropy <> []) by discriminate.
  split; [split; [exact Hne | reflexivity]|].
  exact (generated_token_authenticates (JS := Node.platform) Demo.engine
           Demo.entropy 7%Z req Demo.start "/health" Hne eq_refl eq_refl).
Defined.

Lemma spaced_token_rejects_bearer_witness :
  let req := Demo.GET "/health" (Some "Bearer x") in
  (starts_with_space " x" = true
   /\ path_of_request (JS := Node.platform) req = Ok "/health"
   /\ has_bearer_prefix "Bearer x" = true)
  /\ Server.handler (JS := Node.platform) Demo.engine (Some " x") 7%Z req
       Demo.start
     = reply 401 (error_body (JS := Node.platform) "Unauthorized")
         Demo.start.
Proof.
  intros req. split; [repeat split|].
  exact (spaced_token_rejects_bearer (JS := Node.platform) Demo.engine " x"
           "Bearer x" 7%Z req Demo.start "/health"
           eq_refl eq_refl eq_refl eq_refl).
Defined.

Lemma handler_one_call_witness :
  let req :=
    Demo.POST "/tokenize" None (Node.stringify (JObj [("text", JStr "hi")])) in
  let r := Server.Response 200 ("{" ++ Node.quoted "tokens" ++ ":[104,105]}") in
  let w' := after Demo.start (CallTokenize (Some (JStr "hi"))) 1%nat in
  Server.handler (JS := Node.platform) Demo.engine None 7%Z req Demo.start
  = (Ok r, w')
  /\ (w' = Demo.start \/ exists c s, w' = after Demo.start c s)
  /\ (In (Server.status r) [400; 401; 404; 405]%N -> w' = Demo.start).
Proof.
  intros req r w'.
  assert (Hrun : Server.handler (JS := Node.platform) Demo.engine None 7%Z
                   req Demo.start = (Ok r, w')) by reflexivity.
  split; [exact Hrun|].
  exact (handler_one_call (JS := Node.platform) Demo.engine None 7%Z req
           Demo.start w' r Hrun).
Defined.

Lemma extra_fields_ignored_witness :
  let body1 : value (JS := Node.platform) := JObj [("text", JStr "hi")] in
  let body2 : value (JS := Node.platform) :=
    JObj [("text", JStr "hi"); ("verbose", JBool true)] in
  let send raw :=
    Server.handler (JS := Node.platform) Demo.engine None 7%Z
      (Server.Request (Some "/count-tokens") (Some "localhost") (Some "POST")
         None (Ok raw)) Demo.start in
  (Node.parse (Node.stringify body1) = Ok body1
   /\ Node.parse (Node.stringify body2) = Ok body2
   /\ body1 <> JNull /\ body2 <> JNull)
  /\ send (Node.stringify body1) = send (Node.stringify body2).
Proof.
  intros body1 body2 send.
  assert (Hn1 : body1 <> JNull) by discriminate.
  assert (Hn2 : body2 <> JNull) by discriminate.
  assert (Hagree : forall k,
    In k ["text"; "options"; "texts"; "prompt"; "query"; "documents";
          "tokens"; "model"] ->
    prop body1 k = prop body2 k).
  { intros k Hin. cbn in Hin.
    repeat destruct Hin as [<- | Hin]; try reflexivity. contradiction. }
  split; [repeat split; assumption|].
  exact (extra_fields_ignored (JS := Node.platform) Demo.engine None 7%Z
           (Some "/count-tokens") (Some "localhost") (Some "POST") None
           (Node.stringify body1) (Node.stringify body2) body1 body2
           Demo.start eq_refl eq_refl Hn1 Hn2 Hagree).
Defined.

Lemma null_body_is_500_witness :
  let req := Demo.POST "/embed" None "null" in
  (path_of_request (JS := Node.platform) req = Ok "/embed"
   /\ authenticated None req = true
   /\ method_is req "POST" = true
   /\ Node.parse "null" = Ok JNull
   /\ called (JS := Node.platform) "/embed" JNull
      = Some (CallEmbed None None))
  /\ Server.handler (JS := Node.platform) Demo.engine None 7%Z req
       Demo.start
     = reply 500
         (error_body (JS := Node.platform)
            "Cannot destructure property 'text' of 'body' as it is null.")
         Demo.start.
Proof.
  intros req. split; [repeat split|].
  exact (null_body_is_500 (JS := Node.platform) Demo.engine None 7%Z req
           Demo.start "/embed" "null" (CallEmbed None None)
           eq_refl eq_refl eq_refl eq_refl eq_refl eq_refl).
Defined.

Lemma utility_endpoints_witness :
  let req := Demo.GET "/device" None in
  (path_of_request (JS := Node.platform) req = Ok "/device"
   /\ authenticated None req = true
   /\ method_is req "GET" = true)
  /\ Server.handler (JS := Node.platform) (Demo.broken "") None 7%Z req
       Demo.start
     = reply 500 ("{" ++ Node.quoted "error" ++ ":" ++ Node.quoted "" ++ "}")
         (after Demo.start CallGetDeviceInfo 0%nat).
Proof.
  intros req. split; [repeat split|].
  destruct (utility_endpoints (JS := Node.platform) (Demo.broken "") None
              7%Z req Demo.start "/device" eq_refl eq_refl eq_refl)
    as [_ Hdevice].
  exact (Hdevice eq_refl).
Defined.

Lemma serve_answers_all_witness :
  let arrivals :=
    [(7%Z, Demo.GET "/health" None);
     (8%Z, Demo.POST "/embed" None "{bad json");
     (9%Z, Demo.GET "/nonexistent" None)] in
  let result :=
    Server.serve (JS := Node.platform) Demo.engine None
      (Server.Process true Demo.start) arrivals in
  Forall (fun a => exists path,
              path_of_request (JS := Node.platform) (snd a) = Ok path)
    arrivals
  /\ Server.listening (snd result) = true
  /\ length (fst result) = length arrivals
  /\ Forall (fun r => r <> None) (fst result).
Proof.
  intros arrivals result.
  assert (Hall : Forall (fun a => exists path,
                           path_of_request (JS := Node.platform) (snd a)
                           = Ok path) arrivals).
  { repeat constructor; eexists; reflexivity. }
  split; [exact Hall|].
  exact (serve_answers_all (JS := Node.platform) Demo.engine None arrivals
           Demo.start Hall).
Defined.

(* ================================================================== *)
(** * Further properties of the proxy client *)
(* ================================================================== *)

Lemma strip_trailing_slashes_empty (s : string) :
  strip_trailing_slashes s = "" -> all_slashes s = true.
Proof.
  destruct s as [|c r]; [reflexivity|]. cbn [strip_trailing_slashes].
  destruct (all_slashes (String c r)); [reflexivity | discriminate].
Qed.

Lemma strip_trailing_slashes_split (s : string) :
  exists tail, all_slashes tail = true
               /\ s = strip_trailing_slashes s ++ tail.
Proof.
  induction s as [|c r [tail [Htail Heq]]].
  - exists "". split; reflexivity.
  - cbn [strip_trailing_slashes].
    destruct (all_slashes (String c r)) eqn:Hall.
    + exists (String c r). split; [exact Hall | reflexivity].
    + exists tail. split; [exact Htail|]. cbn [append]. congruence.
Qed.

Lemma strip_trailing_slashes_no_slash (s p : string) :
  strip_trailing_slashes s <> p ++ "/".
Proof.
  revert p. induction s as [|c r IH]; intros p.
  - destruct p; discriminate.
  - cbn [strip_trailing_slashes].
    destruct (all_slashes (String c r)) eqn:Hall;
      [destruct p; discriminate|].
    destruct p as [|c' p']; cbn [append].
    + intros [= -> Hr]. apply strip_trailing_slashes_empty in Hr.
      cbn in Hall. rewrite Hr in Hall. discriminate.
    + intros [= _ Hr]. exact (IH _ Hr).
Qed.

Lemma strip_trailing_slashes_fixed (s : string) :
  (forall p, s <> p ++ "/") -> strip_trailing_slashes s = s.
Proof.
  induction s as [|c r IH]; intros Hno; [reflexivity|].
  cbn [strip_trailing_slashes].
  assert (Hr : forall p, r <> p ++ "/").
  { intros p Hp. apply (Hno (String c p)). cbn. congruence. }
  destruct (all_slashes (String c r)) eqn:Hall.
  - exfalso. cbn in Hall. apply andb_true_iff in Hall as [Hc Hall].
    unfold is_slash in Hc. apply Ascii.eqb_eq in Hc. subst c.
    destruct r as [|c' r'].
    + apply (Hno ""). reflexivity.
    + specialize (IH Hr). cbn [strip_trailing_slashes] in IH.
      rewrite Hall in IH. discriminate.
  - rewrite (IH Hr). reflexivity.
Qed.

(** X12.  The constructor removes exactly the trailing slashes of the
    URL it is given: the URL is the base URL followed by slashes only,
    the base URL does not end in a slash, and a URL that does not end
    in a slash is kept as it is. *)
Theorem baseUrl_normalised (config : Client.RemoteLLMConfig) :
  let self := Client.new_RemoteLLM config in
  (exists tail, all_slashes tail = true
                /\ Client.url config = Client.baseUrl self ++ tail)
  /\ (forall p, Client.baseUrl self <> p ++ "/")
  /\ ((forall p, Client.url config <> p ++ "/") ->
      Client.baseUrl self = Client.url config).
Proof.
  cbn. split; [apply strip_trailing_slashes_split|].
  split; [apply strip_trailing_slashes_no_slash
         | apply strip_trailing_slashes_fixed].
Qed.

Section ProxyResults.
Context {JS : Platform} {W : Type}.
Variable fetch : string -> Client.fetch_init -> M W Client.fetch_response.

(** X13.  [post] returns a value exactly when the fetch gives a response
    with a status in 200..299 whose body can be read and parses as
    JSON; the value is the parsed body. *)
Theorem post_returns_iff (self : Client.RemoteLLM) (path : string)
    (body v : value) (w w' : W) :
  Client.post fetch self path body w = (Ok v, w')
  <-> exists resp text,
        fetch (Client.baseUrl self ++ path)
          (Client.FetchInit "POST" (Some "application/json")
             (Client.bearer self) (Some (JSON_stringify body))) w
        = (Ok resp, w')
        /\ (200 <= Client.resp_status resp <= 299)%N
        /\ Client.resp_text resp = Ok text
        /\ JSON_parse text = Ok v.
Proof.
  unfold Client.post, bind.
  destruct (fetch _ _ w) as [[resp|e] w1].
  - unfold Client.resp_ok.
    destruct (N.leb_spec 200 (Client.resp_status resp)) as [Hlo|Hlo];
      destruct (N.leb_spec (Client.resp_status resp) 299) as [Hhi|Hhi];
      cbn [andb negb]; unfold throw, Client.resp_json, bind, lift.
    + destruct resp as [status [text|e]]; cbn in *.
      * destruct (JSON_parse text) as [v0|e] eqn:Hparse; split.
        -- intros [= <- <-]. exists (Client.FetchResponse status (Ok text)).
           exists text. cbn. repeat split; auto.
        -- intros (resp & t & [= <- <-] & _ & Ht & Hv). cbn in Ht.
           injection Ht as <-. rewrite Hparse in Hv.
           injection Hv as ->. reflexivity.
        -- discriminate.
        -- intros (resp & t & [= <- <-] & _ & Ht & Hv). cbn in Ht.
           injection Ht as <-. rewrite Hparse in Hv. discriminate Hv.
      * split; [discriminate|].
        intros (resp & t & [= <- <-] & _ & Ht & _). discriminate Ht.
    + split; [discriminate|].
      intros (resp' & t & [= <- <-] & [_ H] & _). lia.
    + split; [discriminate|].
      intros (resp' & t & [= <- <-] & [H _] & _). lia.
    + split; [discriminate|].
      intros (resp' & t & [= <- <-] & [H _] & _). lia.
  - split; [discriminate|]. intros (resp & t & Hf & _). discriminate Hf.
Qed.
End ProxyResults.

(** ** The proxy against the server *)

Lemma post_via_exchange {JS : Platform} {W : Type} (self : Client.RemoteLLM)
    (host : string) (listener : Server.request -> M W Server.response)
    (path : string) (body : value) (w : W) :
  Client.post (exchange (Client.baseUrl self) host listener) self path body w
  = match listener
            (Server.Request (Some path) (Some host) (Some "POST")
               (Client.bearer self) (Ok (JSON_stringify body))) w with
    | (Ok r, w') =>
        if ((200 <=? Server.status r) && (Server.status r <=? 299))%N
        then (JSON_parse (Server.body r), w')
        else (Throw (Error ("QMD remote " ++ path ++ " failed ("
                            ++ decimal (Server.status r) ++ "): "
                            ++ Server.body r)), w')
    | (Throw _, w') => (Throw (Error "fetch failed"), w')
    end.
Proof.
  unfold Client.post, bind, exchange. rewrite strip_prefix_app.
  cbn [Client.fetch_method Client.authorization Client.fetch_body].
  destruct (listener _ w) as [[r|e] w']; [|reflexivity].
  unfold Client.resp_ok. cbn [Client.resp_status].
  destruct ((200 <=? Server.status r) && (Server.status r <=? 299))%N;
    [|reflexivity].
  cbn [negb]. unfold Client.resp_json, bind, lift. cbn [Client.resp_text].
  destruct (JSON_parse (Server.body r)); reflexivity.
Qed.

Lemma get_via_exchange {JS : Platform} {W : Type} (self : Client.RemoteLLM)
    (host : string) (listener : Server.request -> M W Server.response)
    (path : string) (w : W) :
  Client.get (exchange (Client.baseUrl self) host listener) self path w
  = match listener
            (Server.Request (Some path) (Some host) (Some "GET")
               (Client.bearer self) (Ok "")) w with
    | (Ok r, w') =>
        if ((200 <=? Server.status r) && (Server.status r <=? 299))%N
        then (JSON_parse (Server.body r), w')
        else (Throw (Error ("QMD remote " ++ path ++ " failed ("
                            ++ decimal (Server.status r) ++ "): "
                            ++ Server.body r)), w')
    | (Throw _, w') => (Throw (Error "fetch failed"), w')
    end.
Proof.
  unfold Client.get, bind, exchange. rewrite strip_prefix_app.
  cbn [Client.fetch_method Client.authorization Client.fetch_body].
  destruct (listener _ w) as [[r|e] w']; [|reflexivity].
  unfold Client.resp_ok. cbn [Client.resp_status].
  destruct ((200 <=? Server.status r) && (Server.status r <=? 299))%N;
    [|reflexivity].
  cbn [negb]. unfold Client.resp_json, bind, lift. cbn [Client.resp_text].
  destruct (JSON_parse (Server.body r)); reflexivity.
Qed.

Section ProxyAndServer.
Context {JS : Platform} {S : Type}.
Variable llm : LLM S.

(** What the server answers to the request the proxy sends for an
    operation, once the request is authenticated or not. *)
Lemma handler_of_proxy (tok : option string) (uptime : number)
    (host path : string) (method : string) (authorization : option string)
    (raw : string) (w : world S) :
  string_truthy path = true ->
  URL_pathname path ("http://" ++ or_string (Some host) "localhost")
  = Ok path ->
  let req := Server.Request (Some path) (Some host) (Some method)
               authorization (Ok raw) in
  Server.handler llm tok uptime req w
  = if authenticated tok req then respond llm uptime req path w
    else reply 401 (error_body "Unauthorized") w.
Proof.
  intros Htruthy Hurl req. rewrite handler_respond.
  unfold path_of_request, req. cbn [Server.req_url Server.req_host].
  replace (or_string (Some path) "/") with path
    by (unfold or_string; rewrite Htruthy; reflexivity).
  rewrite Hurl. reflexivity.
Qed.

Lemma path_of_truthy (op : operation) : string_truthy (path_of op) = true.
Proof. destruct op; reflexivity. Qed.

Ltac unfold_proxy :=
  unfold Client.embed, Client.embedBatch, Client.generate,
    Client.expandQuery, Client.rerank, Client.tokenize,
    Client.countTokens, Client.detokenize, Client.modelExists,
    Client.getDeviceInfo;
  unfold bind at 1.

(** Over an exchange without loss, a proxy with no token or another
    token than the server's is answered 401. *)
Lemma unauthorized_over_exchange (self : Client.RemoteLLM)
    (token host : string) (uptime : number) (op : operation) (w : world S) :
  string_truthy token = true ->
  Client.bearer self = None
  \/ (exists t, Client.authToken self = Some t
                /\ starts_with_space t = false /\ t <> token) ->
  URL_pathname (path_of op) ("http://" ++ or_string (Some host) "localhost")
  = Ok (path_of op) ->
  remote
    (exchange (Client.baseUrl self) host
       (Server.handler llm (Some token) uptime))
    self op w
  = (Throw (Error ("QMD remote " ++ path_of op ++ " failed (401): "
                   ++ error_body "Unauthorized")), w).
Proof.
  intros Htoken Hwrong Hurl.
  assert (Hrej : forall method raw,
    authenticated (Some token)
      (Server.Request (Some (path_of op)) (Some host) (Some method)
         (Client.bearer self) (Ok raw)) = false).
  { intros method raw. unfold authenticated.
    destruct token as [|c0 t0]; [discriminate|].
    cbn [Server.req_authorization].
    destruct Hwrong as [-> | (t & Ht & Hspace & Hdiff)]; [reflexivity|].
    unfold Client.bearer. rewrite Ht.
    destruct (string_truthy t); [|reflexivity].
    change ("Bearer " ++ t) with ("Bearer" ++ " " ++ t).
    rewrite strip_bearer_Bearer by (reflexivity || discriminate || assumption).
    apply String.eqb_neq, Hdiff. }
  destruct op; cbn [remote path_of] in *; unfold_proxy;
    rewrite ?post_via_exchange, ?get_via_exchange;
    rewrite handler_of_proxy by (reflexivity || assumption);
    rewrite Hrej; reflexivity.
Qed.

(** X14.  A proxy whose token the server does not accept gets no
    operation through.  When the server's token is [token] and the
    proxy has none, or another one that its header carries as it is
    (bytes a header can hold, no whitespace at its start, no HTTP
    whitespace at its end), every operation over HTTP throws the error
    of a 401 response carrying the Unauthorized body, and the engine
    is not invoked. *)
Theorem wrong_token_fails (self : Client.RemoteLLM) (token host : string)
    (uptime : number) (op : operation) (w : world S) :
  string_truthy token = true ->
  Client.bearer self = None
  \/ (exists t, Client.authToken self = Some t
                /\ header_token t = true /\ t <> token) ->
  URL_pathname (path_of op) ("http://" ++ or_string (Some host) "localhost")
  = Ok (path_of op) ->
  remote
    (http_exchange (Client.baseUrl self) host
       (Server.handler llm (Some token) uptime))
    self op w
  = (Throw (Error ("QMD remote " ++ path_of op ++ " failed (401): "
                   ++ error_body "Unauthorized")), w).
Proof.
  intros Htoken Hwrong Hurl.
  rewrite remote_over_http.
  - apply unauthorized_over_exchange; try assumption.
    destruct Hwrong as [Hnone | (t & Ht & Hsent & Hdiff)];
      [left; exact Hnone | right].
    exists t. auto using header_token_no_space.
  - destruct Hwrong as [Hnone | (t & Ht & Hsent & Hdiff)].
    + intros h Hh. rewrite Hnone in Hh. discriminate Hh.
    + apply bearer_delivered. intros t' Ht'.
      rewrite Ht in Ht'. injection Ht' as <-. exact Hsent.
Qed.

(** What a POST of the proxy to an inference route comes to, when the
    server accepts the proxy's credentials. *)
Lemma post_route (tok : option string) (self : Client.RemoteLLM)
    (host : string) (uptime : number) (path : string) (body : value)
    (c : call) (w : world S) :
  (forall method raw,
      authenticated tok
        (Server.Request (Some path) (Some host) (Some method)
           (Client.bearer self) (Ok raw)) = true) ->
  string_truthy path = true ->
  URL_pathname path ("http://" ++ or_string (Some host) "localhost")
  = Ok path ->
  wire_ok body ->
  body <> JNull ->
  called path body = Some c ->
  Client.post
    (exchange (Client.baseUrl self) host (Server.handler llm tok uptime))
    self path body w
  = match perform llm c (engine_state w) with
    | (Ok v, s) => (JSON_parse (JSON_stringify (wrapped c v)), after w c s)
    | (Throw e, s) =>
        (Throw (Error ("QMD remote " ++ path ++ " failed (500): "
                       ++ error_body (failure_message e))), after w c s)
    end.
Proof.
  intros Hacc Htruthy Hurl Hbody Hnull Hcalled.
  rewrite post_via_exchange, handler_of_proxy, Hacc by assumption.
  rewrite respond_POST by reflexivity.
  cbn [Server.req_body]. rewrite Hbody, Hcalled.
  destruct body; try contradiction;
    destruct (perform llm c (engine_state w)) as [[? | ?] ?]; reflexivity.
Qed.

Lemma get_device (tok : option string) (self : Client.RemoteLLM)
    (host : string) (uptime : number) (w : world S) :
  (forall method raw,
      authenticated tok
        (Server.Request (Some "/device") (Some host) (Some method)
           (Client.bearer self) (Ok raw)) = true) ->
  URL_pathname "/device" ("http://" ++ or_string (Some host) "localhost")
  = Ok "/device" ->
  Client.get
    (exchange (Client.baseUrl self) host (Server.handler llm tok uptime))
    self "/device" w
  = match getDeviceInfo llm (engine_state w) with
    | (Ok v, s) =>
        (JSON_parse (JSON_stringify v), after w CallGetDeviceInfo s)
    | (Throw e, s) =>
        (Throw (Error ("QMD remote /device failed (500): "
                       ++ error_body (message e))),
         after w CallGetDeviceInfo s)
    end.
Proof.
  intros Hacc Hurl.
  rewrite get_via_exchange, handler_of_proxy, Hacc
    by (reflexivity || assumption).
  unfold respond. cbn [perform andb].
  change (method_is _ "GET") with true. cbn [andb].
  destruct (getDeviceInfo llm (engine_state w)) as [[v|e] s]; reflexivity.
Qed.

(** The engine method behind an operation called directly. *)
Ltac direct_call H :=
  unfold direct, bind, invoke in H;
  match type of H with
  | context [?m (engine_state ?w)] =>
      let r := fresh "r" in
      let e := fresh "e" in
      let s := fresh "s" in
      let Hrun := fresh "Hrun" in
      destruct (m (engine_state w)) as [[r|e] s] eqn:Hrun
  end;
  cbn [ret] in H; try discriminate H.



(** Over an exchange without loss, an engine failure comes back as the
    error of a 500 response. *)
Lemma engine_failure_over_exchange (self : Client.RemoteLLM)
    (host : string) (uptime : number) (op : operation) (w w' : world S)
    (e : js_error) :
  (forall token, Client.authToken self = Some token ->
                 starts_with_space token = false) ->
  URL_pathname (path_of op) ("http://" ++ or_string (Some host) "localhost")
  = Ok (path_of op) ->
  (forall b, request_envelope op = Some b -> wire_ok b) ->
  direct llm op w = (Throw e, w') ->
  let reported :=
    match op with
    | DeviceInfo => message e
    | _ => failure_message e
    end in
  remote
    (exchange (Client.baseUrl self) host
       (Server.handler llm (Client.authToken self) uptime))
    self op w
  = (Throw (Error ("QMD remote " ++ path_of op ++ " failed (500): "
                   ++ error_body reported)), w').
Proof.
  intros Hstart Hurl Hreq Hdirect reported. subst reported.
  assert (Hacc : forall method raw,
    authenticated (Client.authToken self)
      (Server.Request (Some (path_of op)) (Some host) (Some method)
         (Client.bearer self) (Ok raw)) = true)
    by (intros; apply authenticated_bearer; [assumption | reflexivity]).
  destruct op as [text options | texts | prompt options | query options
                  | query documents options | text | text | tokens | model | ];
    try destruct options as [options|];
    cbn [path_of request_envelope remote] in *;
    direct_call Hdirect; injection Hdirect as <- <-; unfold_proxy;
    try (erewrite post_route
           by solve [ reflexivity | assumption | discriminate
                    | apply Hreq; reflexivity ]);
    try (rewrite get_device by assumption);
    unfold perform, bind;
    cbn [prop obj_literal literal_fields lookup
           String.eqb Ascii.eqb Bool.eqb];
    rewrite Hrun; reflexivity.
Qed.

(** X16.  An engine failure reaches the caller of the proxy.  With the
    same token on both sides, a token that its header carries as it is
    (bytes a header can hold, no whitespace at its start, no HTTP
    whitespace at its end), and a request body that survives
    serialisation: when the engine throws [e] on an operation called
    directly, the operation called through the proxy over HTTP throws
    an error that names the path, the status 500 and the error
    envelope of [e]'s message (for a POST route [Internal server
    error] stands for an empty message), and the engine is left as the
    direct call leaves it. *)
Theorem engine_failure_reaches_caller (self : Client.RemoteLLM)
    (host : string) (uptime : number) (op : operation) (w w' : world S)
    (e : js_error) :
  (forall token, Client.authToken self = Some token ->
                 header_token token = true) ->
  URL_pathname (path_of op) ("http://" ++ or_string (Some host) "localhost")
  = Ok (path_of op) ->
  (forall b, request_envelope op = Some b -> wire_ok b) ->
  direct llm op w = (Throw e, w') ->
  let reported :=
    match op with
    | DeviceInfo => message e
    | _ => failure_message e
    end in
  remote
    (http_exchange (Client.baseUrl self) host
       (Server.handler llm (Client.authToken self) uptime))
    self op w
  = (Throw (Error ("QMD remote " ++ path_of op ++ " failed (500): "
                   ++ error_body reported)), w').
Proof.
  intros Htoken Hurl Hreq Hdirect reported.
  rewrite remote_over_http by (apply bearer_delivered; exact Htoken).
  apply engine_failure_over_exchange; try assumption.
  intros token Hself. apply header_token_no_space, Htoken, Hself.
Qed.

(** X17.  Pre-warming never throws, whatever the engine does.  It calls
    embed, generate and rerank, in this order, and stops at the first
    call that throws: the calls it makes are the first one, two or
    three of these; all three are made exactly when embed and generate
    return. *)
Theorem prewarm_never_fails (one : number) (w : world S) :
  exists w' n,
    Startup.prewarm llm one w = (Ok tt, w')
    /\ (1 <= n <= 3)%nat
    /\ engine_calls w'
       = (engine_calls w
          ++ firstn n [Startup.warm_embed; Startup.warm_generate one;
                       Startup.warm_rerank])%list
    /\ (n = 3%nat <->
        exists r1 s1 r2 s2,
          embed llm (Some (JStr "warmup")) None (engine_state w)
          = (Ok r1, s1)
          /\ generate llm (Some (JStr "warmup"))
               (Some (JObj [("maxTokens", JNum one)])) s1
             = (Ok r2, s2)).
Proof.
  unfold Startup.prewarm, try_catch, bind, invoke.
  cbn [engine_state engine_calls].
  destruct (embed llm _ _ (engine_state w)) as [[r1|e1] s1] eqn:H1.
  - cbn [engine_state engine_calls].
    destruct (generate llm _ _ s1) as [[r2|e2] s2] eqn:H2.
    + cbn [engine_state engine_calls].
      destruct (rerank llm _ _ _ s2) as [[r3|e3] s3];
        eexists; exists 3%nat;
        (split; [reflexivity|]); (split; [lia|]);
        (split; [cbn; rewrite <- !app_assoc; reflexivity|]);
        (split; [intros _; eauto 10 | intros _; reflexivity]).
    + eexists; exists 2%nat.
      split; [reflexivity|]. split; [lia|].
      split; [cbn; rewrite <- !app_assoc; reflexivity|].
      split; [discriminate|].
      intros (r1' & s1' & r2' & s2' & [= <- <-] & Hg).
      rewrite H2 in Hg. discriminate Hg.
  - eexists; exists 1%nat.
    split; [reflexivity|]. split; [lia|]. split; [reflexivity|].
    split; [discriminate|].
    intros (r1' & s1' & r2' & s2' & He & _). discriminate He.
Qed.
End ProxyAndServer.

Lemma wrong_token_fails_witness :
  let self := Client.new_RemoteLLM
                {| Client.url := "http://gpu/";
                   Client.cfg_authToken := Some "guess";
                   Client.cfg_timeoutMs := None |} in
  let op := Embed (JS := Node.platform) "hi" None in
  (string_truthy "s3cret" = true
   /\ (exists t, Client.authToken self = Some t
                 /\ header_token t = true /\ t <> "s3cret")
   /\ Node.pathname (path_of op)
        ("http://" ++ or_string (Some "gpu") "localhost")
      = Ok (path_of op))
  /\ remote
       (http_exchange (Client.baseUrl self) "gpu"
          (Server.handler Demo.engine (Some "s3cret") 7%Z))
       self op Demo.start
     = (Throw (Error ("QMD remote /embed failed (401): {"
                      ++ Node.quoted "error" ++ ":"
                      ++ Node.quoted "Unauthorized" ++ "}")),
        Demo.start).
Proof.
  intros self op.
  assert (Hwrong : exists t, Client.authToken self = Some t
                             /\ header_token t = true
                             /\ t <> "s3cret").
  { exists "guess". repeat split. discriminate. }
  split; [repeat split; exact Hwrong|].
  exact (wrong_token_fails (JS := Node.platform) Demo.engine self "s3cret"
           "gpu" 7%Z op Demo.start eq_refl (or_intror Hwrong) eq_refl).
Defined.


Lemma engine_failure_reaches_caller_witness :
  let self := Client.new_RemoteLLM
                {| Client.url := "http://gpu";
                   Client.cfg_authToken := Some "s3cret";
                   Client.cfg_timeoutMs := None |} in
  let op := Embed (JS := Node.platform) "hi" None in
  let e := Error "model not loaded" in
  let w' := after Demo.start (CallEmbed (Some (JStr "hi")) None) 0%nat in
  ((forall token, Client.authToken self = Some token ->
                  header_token token = true)
   /\ Node.pathname (path_of op)
        ("http://" ++ or_string (Some "gpu") "localhost")
      = Ok (path_of op)
   /\ (forall b, request_envelope op = Some b -> wire_ok b)
   /\ direct (Demo.broken "model not loaded") op Demo.start = (Throw e, w'))
  /\ remote
       (http_exchange (Client.baseUrl self) "gpu"
          (Server.handler (Demo.broken "model not loaded")
             (Client.authToken self) 7%Z))
       self op Demo.start
     = (Throw (Error ("QMD remote /embed failed (500): {"
                      ++ Node.quoted "error" ++ ":"
                      ++ Node.quoted "model not loaded" ++ "}")), w').
Proof.
  intros self op e w'.
  assert (Hstart : forall token, Client.authToken self = Some token ->
                                 header_token token = true)
    by (intros token [= <-]; reflexivity).
  assert (Hreq : forall b, request_envelope op = Some b -> wire_ok b)
    by (intros b [= <-]; reflexivity).
  split; [repeat split; assumption|].
  exact (engine_failure_reaches_caller (JS := Node.platform)
           (Demo.broken "model not loaded") self "gpu" 7%Z op Demo.start w'
           e Hstart eq_refl Hreq eq_refl).
Defined.
